(** * Raft: fetching, patching and building the dependencies of a project

    A shallow embedding of [src/raft/vcs.ts] (the [Repository] interface
    with its git implementation, and the dependency classes with
    [getDependency]), [src/raft/template.ts] and
    [Src/Raft/BuildConfig.ts].

    The TypeScript code is asynchronous but strictly sequential: every
    promise is either awaited or chained with [then] before the next call
    is made.  A call expression is therefore embedded as a transformer of
    a [World]: the state of the collaborators the code talks to (file
    system, child processes, build backend) together with a ghost
    [history] that records, in order, every call the code makes to a
    collaborator and how that call settled.  Collaborators whose code is
    not part of the sources ([./path], [./system], [./cmake], [./project],
    [gulp], [rimraf]) are section variables acting on the outside state. *)

From stdpp Require Import base option list strings gmap.
From Stdlib Require Import ZArith.

(** ** JavaScript values and promise outcomes *)

Module Js.

(** The run-time values that flow through the code. *)
Inductive Value : Type :=
| VUndefined
| VNull
| VBool (b : bool)
| VNumber (n : Z)
| VString (s : string)
| VError (kind message : string).

(** What evaluating a call expression yields: the callee returned a
    promise that fulfilled or rejected, returned a value that is not a
    promise, or threw synchronously. *)
Inductive Outcome : Type :=
| Fulfilled (v : Value)
| Rejected (e : Value)
| Plain (v : Value)
| Threw (e : Value).

(** Completion of a statement list inside a function body. *)
Inductive Completion (A : Type) : Type :=
| Normal (a : A)
| Abrupt (e : Value).
Arguments Normal {A} a.
Arguments Abrupt {A} e.

(** [if (x)] on an optional string: [undefined] and the empty string
    are falsy. *)
Definition truthy (s : option string) : bool :=
  match s with
  | Some EmptyString => false
  | Some _ => true
  | None => false
  end.

(** The error of an outcome that is a failure: a rejection or a throw. *)
Definition failure (o : Outcome) : option Value :=
  match o with
  | Rejected e | Threw e => Some e
  | Fulfilled _ | Plain _ => None
  end.

(** What calling [.then] on something that is not a promise throws. *)
Definition TypeError : Value := VError "TypeError" "then is not a function".

End Js.
Export Js.

(** ** Worlds, histories and the sequencing combinators *)

Module Async.

Section Defs.
Context {S E : Type}.

(** One entry of the history: the code invoked collaborator operation
    [c]; operation [c] settled with outcome [o]. *)
Inductive Event : Type :=
| Invoke (c : E)
| Settle (c : E) (o : Outcome).

Record World : Type := mkWorld { outside : S; history : list Event }.

Definition Call : Type := World → Outcome * World.
Definition Body (A : Type) : Type := World → Completion A * World.

(** A call to an operation of a collaborator.  [f] is what the
    collaborator does to the outside state and what it hands back;
    [k] reads the handed-back value as an outcome (the identity for
    promise-returning operations, the callback for node-style ones).
    The history gets the invocation and then the way it settled. *)
Definition perform_cb {R : Type} (c : E) (f : S → R * S) (k : R → Outcome) : Call :=
  fun w =>
    let '(r, s) := f (outside w) in
    let o := k r in
    (o, {| outside := s; history := history w ++ [Invoke c; Settle c o] |}).

Definition perform (c : E) (f : S → Outcome * S) : Call :=
  perform_cb c f (fun o => o).

(** [Promise.resolve(v)] *)
Definition Promise_resolve (v : Value) : Call := fun w => (Fulfilled v, w).

(** [new Promise((resolve, reject) => ...)] *)
Definition new_Promise
    (executor : (Value → Outcome) → (Value → Outcome) → Call) : Call :=
  executor Fulfilled Rejected.

(** A function that returns the non-promise value [v] and does nothing. *)
Definition plain (v : Value) : Call := fun w => (Plain v, w).

(** What a promise created by [then] or by an [async] function becomes
    when it is resolved with the result of a callback. *)
Definition adopt (o : Outcome) : Outcome :=
  match o with
  | Fulfilled v => Fulfilled v
  | Rejected e => Rejected e
  | Plain v => Fulfilled v
  | Threw e => Rejected e
  end.

(** [p.then(cb)]: the callback runs only once [p] has fulfilled; a
    rejection skips it and is handed on; a receiver that is not a
    promise makes the property call throw. *)
Definition then_ (p : Call) (cb : Value → Call) : Call :=
  fun w =>
    match p w with
    | (Fulfilled v, w1) => let '(o, w2) := cb v w1 in (adopt o, w2)
    | (Rejected e, w1) => (Rejected e, w1)
    | (Plain _, w1) => (Threw TypeError, w1)
    | (Threw e, w1) => (Threw e, w1)
    end.

(** [a; b] as two statements of a synchronous function body. *)
Definition seq (a b : Call) : Call :=
  fun w =>
    match a w with
    | (Threw e, w1) => (Threw e, w1)
    | (_, w1) => b w1
    end.

(** Statement lists of an [async] function. *)
Definition ret {A} (a : A) : Body A := fun w => (Normal a, w).

Definition bind {A B} (m : Body A) (f : A → Body B) : Body B :=
  fun w =>
    match m w with
    | (Normal a, w1) => f a w1
    | (Abrupt e, w1) => (Abrupt e, w1)
    end.

(** [await c] *)
Definition await (c : Call) : Body Value :=
  fun w =>
    match c w with
    | (Fulfilled v, w1) | (Plain v, w1) => (Normal v, w1)
    | (Rejected e, w1) | (Threw e, w1) => (Abrupt e, w1)
    end.

(** A read of the outside state (for instance [path.exists()]). *)
Definition inspect {A} (f : S → A) : Body A :=
  fun w => (Normal (f (outside w)), w).

(** [for (let x of xs) { body x }] *)
Fixpoint for_of {A} (xs : list A) (body : A → Body unit) : Body unit :=
  match xs with
  | [] => ret tt
  | x :: rest => bind (body x) (fun _ => for_of rest body)
  end.

(** [async function () { body }] *)
Definition async (body : Body Value) : Call :=
  fun w =>
    match body w with
    | (Normal v, w1) => (Fulfilled v, w1)
    | (Abrupt e, w1) => (Rejected e, w1)
    end.

(** The operations invoked in a list of events, in order. *)
Definition invoked (h : list Event) : list E :=
  omap (fun ev => match ev with Invoke c => Some c | Settle _ _ => None end) h.

(** The two events one collaborator call leaves in the history. *)
Definition call_events (c : E) (o : Outcome) : list Event :=
  [Invoke c; Settle c o].

(** The history of calls [cs] made one after the other that settled with
    [os]; only as many calls as there are outcomes were made. *)
Definition settled_calls (cs : list E) (os : list Outcome) : list Event :=
  flat_map (fun co => call_events (fst co) (snd co)) (zip cs os).

End Defs.

Arguments Event : clear implicits.
Arguments World : clear implicits.
Arguments Call : clear implicits.
Arguments Body : clear implicits.

End Async.
Export Async.

Notation "'let*' x ':=' m 'in' k" := (bind m (fun x => k))
  (at level 10, x name, m at level 100, k at level 200).

(** Proof steps for histories that are written out. *)

(** Splits [l = pre ++ x :: post] for a list [l] that is written out. *)
Ltac split_written_list :=
  unfold call_events in *;
  repeat match goal with
         | H : _ = ?pre ++ _ :: _ |- _ => destruct pre; cbn in H; simplify_eq
         end.

(** Goes through the members of a list that is written out. *)
Ltac member_of_written_list H :=
  unfold call_events in H; cbn in H;
  repeat (apply elem_of_cons in H as [H|H]; [by simplify_eq|]);
  by apply elem_of_nil in H.

(** ** [Src/Raft/BuildConfig.ts] *)

Module BuildConfig.

(** [enum Platform { Host }] *)
Inductive Platform : Type := PlatformHost.

(** [enum Architecture { Host }] *)
Inductive Architecture : Type := ArchitectureHost.

(** [interface Build] *)
Record Build : Type := mkBuild {
  platform : Platform;
  architecture : Architecture;
  isDeploy : bool
}.

(** Numeric enums: the first member is [0]. *)
Definition Platform_value (p : Platform) : Z :=
  match p with PlatformHost => 0%Z end.

Definition Architecture_value (a : Architecture) : Z :=
  match a with ArchitectureHost => 0%Z end.

End BuildConfig.
Export BuildConfig.

(** ** [src/raft/vcs.ts]: repositories *)

Module VCS.

(** [interface Repository]: what an implementation does to its own
    state [S] when asked to download or to patch. *)
Record Repository (S Path : Type) : Type := mkRepository {
  download : Path → S → Outcome * S;
  patch : Path → Path → S → Outcome * S
}.
Arguments download {S Path} _ _ _.
Arguments patch {S Path} _ _ _ _.

(** The one operation of [./system] the file uses: [execute(cmd, args,
    {cwd})] starts a child process. *)
Inductive GitCall (Path : Type) : Type :=
| Execute (cmd : string) (args : list string) (cwd : option Path).
Arguments Execute {Path} _ _ _.

(** [class GitRepository]: the constructor stores [uri] and the
    optional [branch]. *)
Record GitRepository : Type := mkGitRepository {
  uri : string;
  branch : option string
}.

Section Git.
Context {S Path : Type}.
(** [./path] and [./system] are not among the sources. *)
Variable toString : Path → string.
Variable path_exists : Path → S → bool.
Variable system_execute : string → list string → option Path → S → Outcome * S.

Definition execute (cmd : string) (args : list string) (cwd : option Path)
  : Call S (GitCall Path) :=
  perform (Execute cmd args cwd) (system_execute cmd args cwd).

Definition getGitRepo (uri : string) (destination : Path) : Call S (GitCall Path) :=
  fun w =>
    if negb (path_exists destination (outside w))
    then execute "git" ["clone"; uri; toString destination] None w
    else Promise_resolve VUndefined w.

Definition checkoutBranch (repo : Path) (branchName : string) : Call S (GitCall Path) :=
  execute "git" ["checkout"; branchName] (Some repo).

(** [GitRepository.download].  Returning a promise from an [async]
    function makes the function's promise follow it, which is what
    awaiting it and returning the value does. *)
Definition GitRepository_download (this : GitRepository) (destination : Path)
  : Call S (GitCall Path) :=
  async (
    let* _ := await (getGitRepo (uri this) destination) in
    if truthy (branch this)
    then await (checkoutBranch destination (default "" (branch this)))
    else ret VUndefined).

(** [GitRepository.patch] *)
Definition GitRepository_patch (this : GitRepository) (repoDirectory patch : Path)
  : Call S (GitCall Path) :=
  async (
    let* both := inspect (fun s => path_exists repoDirectory s && path_exists patch s) in
    if both
    then
      let* _ := await (execute "git" ["apply"; toString patch] (Some repoDirectory)) in
      ret VUndefined
    else ret VUndefined).

(** [GitRepository implements Repository] *)
Definition GitRepository_Repository (this : GitRepository)
  : Repository (World S (GitCall Path)) Path :=
  {| download := GitRepository_download this;
     patch := GitRepository_patch this |}.

End Git.

End VCS.

(** ** [src/raft/vcs.ts]: dependencies and [getDependency] *)

Module Dependency.

(** Modelled from the spec: the [DependencyDescriptor] of
    [./raft-file-descriptor], which is not among the sources; the spec
    gives it a name and a mapping of string keys to values. *)
Record DependencyDescriptor : Type := mkDescriptor {
  descriptor_name : string;
  configOptions : gmap string Value
}.

(** Modelled from the spec: the [Build] the dependency code imports from
    [./build-config], a module that is not among the sources.  The spec
    gives a build a platform, an architecture and [isDeploy], which are
    the members [Src/Raft/BuildConfig.ts] declares; the dependency code
    reads [platform] and a member [releaseBuild].  A build is therefore
    an object that has the declared members and may own other
    properties, [releaseBuild] among them. *)
Record Build : Type := mkBuildObject {
  declared : BuildConfig.Build;
  other_properties : gmap string Value
}.

(** The property read [build[key]]: a declared member, or else the
    property the object owns under that key, or else [undefined]. *)
Definition Build_get (build : Build) (key : string) : Value :=
  if String.eqb key "platform"
  then VNumber (Platform_value (platform (declared build)))
  else if String.eqb key "architecture"
  then VNumber (Architecture_value (architecture (declared build)))
  else if String.eqb key "isDeploy"
  then VBool (isDeploy (declared build))
  else default VUndefined (other_properties build !! key).

(** The three lookups of [./project] the file uses. *)
Record Project (Path : Type) : Type := mkProject {
  dirForDependency : string → Path;
  dirForDependencyBuild : string → Build → Path;
  dirForDependencyInstall : Build → Path
}.
Arguments dirForDependency {Path} _ _.
Arguments dirForDependencyBuild {Path} _ _ _.
Arguments dirForDependencyInstall {Path} _ _.

(** Modelled from the spec: [CMake.CMakeOptions] of [./cmake], which is
    not among the sources.  The spec says the options expose an install
    prefix, a release flag, a target platform and backend key/value
    pairs; [create] fixes the prefix and each setter stores what it is
    given. *)
Record CMakeOptions (Path : Type) : Type := mkCMakeOptions {
  installPrefix : Path;
  releaseFlag : option Value;
  targetPlatform : option Platform;
  backendOptions : option (gmap string Value)
}.
Arguments mkCMakeOptions {Path}.
Arguments installPrefix {Path} _.
Arguments releaseFlag {Path} _.
Arguments targetPlatform {Path} _.
Arguments backendOptions {Path} _.

Definition CMakeOptions_create {Path} (installLocation : Path) : CMakeOptions Path :=
  mkCMakeOptions installLocation None None None.

Definition CMakeOptions_isReleaseBuild {Path} (o : CMakeOptions Path) (v : Value)
  : CMakeOptions Path :=
  mkCMakeOptions (installPrefix o) (Some v) (targetPlatform o) (backendOptions o).

Definition CMakeOptions_platform {Path} (o : CMakeOptions Path) (p : Platform)
  : CMakeOptions Path :=
  mkCMakeOptions (installPrefix o) (releaseFlag o) (Some p) (backendOptions o).

Definition CMakeOptions_configOptions {Path} (o : CMakeOptions Path)
    (opts : gmap string Value) : CMakeOptions Path :=
  mkCMakeOptions (installPrefix o) (releaseFlag o) (targetPlatform o) (Some opts).

(** The collaborator operations a dependency calls: the two of its
    repository and the three of the build backend [./cmake]. *)
Inductive DepCall (Path : Type) : Type :=
| RepoDownload (destination : Path)
| RepoPatch (repoDirectory patch : Path)
| CMakeConfigure (source build : Path) (options : CMakeOptions Path)
| CMakeBuild (build : Path)
| CMakeInstall (build : Path).
Arguments RepoDownload {Path} _.
Arguments RepoPatch {Path} _ _.
Arguments CMakeConfigure {Path} _ _ _.
Arguments CMakeBuild {Path} _.
Arguments CMakeInstall {Path} _.

(** [interface Dependency], over the state [T] its implementation works
    on. *)
Record Dependency (T Path : Type) : Type := mkDependency {
  dep_name : string;
  dep_patches : list Path;
  dep_download : Project Path → Build → T → Outcome * T;
  dep_buildInstall : Project Path → Build → T → Outcome * T
}.
Arguments dep_name {T Path} _.
Arguments dep_patches {T Path} _.
Arguments dep_download {T Path} _ _ _ _.
Arguments dep_buildInstall {T Path} _ _ _ _.

(** [class RepositoryDependency]: the three constructor parameters are
    its fields. *)
Record RepositoryDependency (S Path : Type) : Type := mkRepositoryDependency {
  descriptor : DependencyDescriptor;
  repository : VCS.Repository S Path;
  patches : list Path
}.
Arguments mkRepositoryDependency {S Path}.
Arguments descriptor {S Path} _.
Arguments repository {S Path} _.
Arguments patches {S Path} _.

(** [get name()] *)
Definition name {S Path} (this : RepositoryDependency S Path) : string :=
  descriptor_name (descriptor this).

(** What [getDependency] calls: the logger and the two phases. *)
Inductive OrchCall : Type :=
| Raftlog (name message : string)
| Download
| BuildInstall.

Section Dependencies.
Context {S Path : Type}.
(** [./path] and [./cmake] are not among the sources. *)
Variable path_exists : Path → S → bool.
Variable CMake_configure : Path → Path → CMakeOptions Path → S → Outcome * S.
Variable CMake_build : Path → S → Outcome * S.
Variable CMake_install : Path → S → Outcome * S.

(** The loop of [download]:
    [for (let patch of this.patches) await this.repository.patch(dependencyDir, patch)],
    over the entries [ps]. *)
Definition patch_loop (this : RepositoryDependency S Path) (dependencyDir : Path)
    (ps : list Path) : Body S (DepCall Path) unit :=
  for_of ps (fun patch =>
    let* _ := await (perform (RepoPatch dependencyDir patch)
                       (VCS.patch (repository this) dependencyDir patch)) in
    ret tt).

(** [RepositoryDependency.download] *)
Definition RepositoryDependency_download (this : RepositoryDependency S Path)
    (project : Project Path) (build : Build) : Call S (DepCall Path) :=
  async (
    let dependencyDir := dirForDependency project (name this) in
    let* present := inspect (path_exists dependencyDir) in
    if present then ret VUndefined
    else
      let* _ := await (perform (RepoDownload dependencyDir)
                         (VCS.download (repository this) dependencyDir)) in
      let* _ := patch_loop this dependencyDir (patches this) in
      ret VUndefined).

(** [RepositoryDependency.buildInstall]: [return null]. *)
Definition RepositoryDependency_buildInstall (this : RepositoryDependency S Path)
    (project : Project Path) (build : Build) : Call S (DepCall Path) :=
  plain VNull.

(** The options [CMakeDependency.buildInstall] builds; the release flag
    is the property read [build.releaseBuild]. *)
Definition cmakeOptions (this : RepositoryDependency S Path)
    (project : Project Path) (build : Build) : CMakeOptions Path :=
  let installLocation := dirForDependencyInstall project build in
  CMakeOptions_configOptions
    (CMakeOptions_platform
       (CMakeOptions_isReleaseBuild
          (CMakeOptions_create installLocation)
          (Build_get build "releaseBuild"))
       (platform (declared build)))
    (configOptions (descriptor this)).

(** [CMakeDependency.buildInstall]; the class adds no field to
    [RepositoryDependency]. *)
Definition CMakeDependency_buildInstall (this : RepositoryDependency S Path)
    (project : Project Path) (build : Build) : Call S (DepCall Path) :=
  let sourceLocation := dirForDependency project (name this) in
  let buildLocation := dirForDependencyBuild project (name this) build in
  let cmakeOptions := cmakeOptions this project build in
  then_
    (then_
       (perform (CMakeConfigure sourceLocation buildLocation cmakeOptions)
          (CMake_configure sourceLocation buildLocation cmakeOptions))
       (fun _ => perform (CMakeBuild buildLocation) (CMake_build buildLocation)))
    (fun _ => perform (CMakeInstall buildLocation) (CMake_install buildLocation)).

(** [RepositoryDependency implements Dependency] and
    [CMakeDependency extends RepositoryDependency]. *)
Definition RepositoryDependency_Dependency (this : RepositoryDependency S Path)
  : Dependency (World S (DepCall Path)) Path :=
  {| dep_name := name this;
     dep_patches := patches this;
     dep_download := RepositoryDependency_download this;
     dep_buildInstall := RepositoryDependency_buildInstall this |}.

Definition CMakeDependency_Dependency (this : RepositoryDependency S Path)
  : Dependency (World S (DepCall Path)) Path :=
  {| dep_name := name this;
     dep_patches := patches this;
     dep_download := RepositoryDependency_download this;
     dep_buildInstall := CMakeDependency_buildInstall this |}.

End Dependencies.

Section Orchestrator.
Context {T Path : Type}.

(** [raftlog(name, message)] of [./log]: returns nothing. *)
Definition raftlog (name message : string) : Call T OrchCall :=
  perform (Raftlog name message) (fun t => (Plain VUndefined, t)).

(** [getDependency] *)
Definition getDependency (project : Project Path) (build : Build)
    (dependency : Dependency T Path) : Call T OrchCall :=
  seq (raftlog (dep_name dependency) "Downloading")
    (then_
       (then_
          (perform Download (dep_download dependency project build))
          (fun _ =>
             seq (raftlog (dep_name dependency) "Building")
                 (perform BuildInstall (dep_buildInstall dependency project build))))
       (fun _ =>
          seq (raftlog (dep_name dependency) "Ready")
              (plain VUndefined))).

End Orchestrator.

End Dependency.

(** ** Applying patches, in the words of the specification *)

Module PatchOrder.

Section Specification.
Context {S Path : Type}.

(** What applying a list of patches comes to: how each patch that was
    attempted settled, the error that stopped the sequence if one did,
    and the state the repository is left in. *)
Record Applied : Type := mkApplied {
  outcomes : list Outcome;
  stopped_by : option Value;
  final : S
}.

(** The specification of the patch phase, written without promises:
    "apply each patch in [patches], in array order, via
    [repository.patch(dependencyDir, patchPath)]; patch application
    failure must abort the sequence".  The first patch is applied in the
    state at hand and each next one in the state the previous one left;
    after a patch that failed nothing more is applied. *)
Fixpoint spec_apply_patches (repository : VCS.Repository S Path) (dependencyDir : Path)
    (patches : list Path) (s : S) : Applied :=
  match patches with
  | [] => mkApplied [] None s
  | patchPath :: rest =>
      let '(o, s1) := VCS.patch repository dependencyDir patchPath s in
      match failure o with
      | Some e => mkApplied [o] (Some e) s1
      | None =>
          let later := spec_apply_patches repository dependencyDir rest s1 in
          mkApplied (o :: outcomes later) (stopped_by later) (final later)
      end
  end.

End Specification.

Arguments Applied : clear implicits.

End PatchOrder.

(** ** [src/raft/template.ts] *)

Module Template.

(** How the gulp stream of [instantiateTemplate] ends: with its
    [finish] event or with an [error] event. *)
Inductive StreamEnd : Type :=
| Finish
| Error (e : Value).

Inductive TemplateCall (Path : Type) : Type :=
| RepoDownload (destination : Path)
| GulpStream (templatePath destination : Path)
| Rimraf (path : string).
Arguments RepoDownload {Path} _.
Arguments GulpStream {Path} _ _.
Arguments Rimraf {Path} _.

Section Templates.
Context {S Path : Type}.
(** [./path], [gulp] and [rimraf] are not among the sources.  [rimraf]
    hands its callback an error or nothing. *)
Variable toString : Path → string.
Variable append : Path → string → Path.
Variable gulp_stream : Path → Path → list (string * string) → S → StreamEnd * S.
Variable rimraf : string → S → option Value * S.

(** [instantiateTemplate]: [finish] resolves, [error] rejects. *)
Definition instantiateTemplate (templatePath destination : Path)
    (context : list (string * string)) : Call S (TemplateCall Path) :=
  new_Promise (fun resolve reject =>
    perform_cb (GulpStream templatePath destination)
      (gulp_stream templatePath destination context)
      (fun stream_end =>
         match stream_end with
         | Finish => resolve VUndefined
         | Error e => reject e
         end)).

(** [instantiateRepositoryTemplate] *)
Definition instantiateRepositoryTemplate (repo : VCS.Repository S Path)
    (destination : Path) (context : list (string * string))
  : Call S (TemplateCall Path) :=
  async (
    let repoLocation := append destination ".template" in
    let* _ := await (perform (RepoDownload repoLocation)
                       (VCS.download repo repoLocation)) in
    let* _ := await (instantiateTemplate repoLocation destination context) in
    await (new_Promise (fun resolve _ =>
      perform_cb (Rimraf (toString repoLocation))
        (rimraf (toString repoLocation))
        (fun err => resolve VUndefined)))).

End Templates.

End Template.

(** ** [src/raft/template.ts]: renaming the files of a template *)

Module Rename.

(** [interface ParsedPath]: every member is optional. *)
Record ParsedPath : Type := mkParsedPath {
  dirname : option string;
  basename : option string;
  extname : option string
}.

(** The rest of [s] after [sep], when [s] starts with [sep]. *)
Fixpoint strip_prefix (sep s : string) : option string :=
  match sep, s with
  | EmptyString, _ => Some s
  | String a sep', String b s' => if Ascii.eqb a b then strip_prefix sep' s' else None
  | String _ _, EmptyString => None
  end.

(** [find] matches at some position of [s]. *)
Fixpoint occursb (find s : string) : bool :=
  match strip_prefix find s with
  | Some _ => true
  | None =>
      match s with
      | EmptyString => false
      | String _ s' => occursb find s'
      end
  end.

(** [find] matches at the start of [tail] and at no position inside
    [before]: the match at the end of [before] is the leftmost one of
    [before +:+ tail]. *)
Fixpoint leftmost_after (find before tail : string) : bool :=
  match before with
  | EmptyString => bool_decide (is_Some (strip_prefix find tail))
  | String _ before' =>
      match strip_prefix find (before +:+ tail) with
      | Some _ => false
      | None => leftmost_after find before' tail
      end
  end.

(** The scan of [String.prototype.split] for a separator that is not
    empty: [cur] is the piece being collected, [rest] what is still to
    be read.  A match closes the piece and the scan resumes after it;
    the end of the string closes the last piece.  Every step reads at
    least one character, so [fuel] is the length of the string. *)
Fixpoint split_scan (fuel : nat) (sep cur rest : string) : list string :=
  match rest with
  | EmptyString => [cur]
  | String c rest' =>
      match fuel with
      | 0 => [cur +:+ rest]
      | S fuel' =>
          match strip_prefix sep rest with
          | Some after => cur :: split_scan fuel' sep "" after
          | None => split_scan fuel' sep (cur +:+ String c "") rest'
          end
      end
  end.

(** [str.split(separator)].  A string of the model stands for the
    sequence of code units of the JavaScript string, one character per
    unit; a literal is read as the ASCII text it spells.  A separator
    that is not empty is looked for from left to right.  An empty
    separator cuts the string into its units, and the empty string into
    nothing. *)
Definition split (str separator : string) : list string :=
  match separator with
  | EmptyString => map (fun c => String c "") (String.list_ascii_of_string str)
  | String _ _ => split_scan (String.length str) separator "" str
  end.

(** [parts.join(separator)] *)
Fixpoint join (separator : string) (parts : list string) : string :=
  match parts with
  | [] => ""
  | part :: rest =>
      match rest with
      | [] => part
      | _ :: _ => part +:+ separator +:+ join separator rest
      end
  end.

(** [replaceAll] *)
Definition replaceAll (str find replaceWith : string) : string :=
  join replaceWith (split str find).

(** What [undefined.split(...)] throws. *)
Definition split_of_undefined : Value :=
  VError "TypeError" "Cannot read property 'split' of undefined".

(** [replaceAll(x, find, replaceWith)] for a member [x] that may be
    [undefined]. *)
Definition replaceAll_member (x : option string) (find replaceWith : string)
  : Completion string :=
  match x with
  | Some str => Normal (replaceAll str find replaceWith)
  | None => Abrupt split_of_undefined
  end.

(** The template literal [`__${key}__`]. *)
Definition placeholder (key : string) : string := "__" +:+ key +:+ "__".

(** One turn of the loop of [renameFile]: the three assignments, in
    order.  The object is returned as the assignments made so far left
    it, also when a later one throws. *)
Definition renameFile_turn (key value : string) (parsedpath : ParsedPath)
  : Completion unit * ParsedPath :=
  match replaceAll_member (dirname parsedpath) (placeholder key) value with
  | Abrupt e => (Abrupt e, parsedpath)
  | Normal d =>
      let p1 := mkParsedPath (Some d) (basename parsedpath) (extname parsedpath) in
      match replaceAll_member (basename p1) (placeholder key) value with
      | Abrupt e => (Abrupt e, p1)
      | Normal b =>
          let p2 := mkParsedPath (dirname p1) (Some b) (extname p1) in
          match replaceAll_member (extname p2) (placeholder key) value with
          | Abrupt e => (Abrupt e, p2)
          | Normal x => (Normal tt, mkParsedPath (dirname p2) (basename p2) (Some x))
          end
      end
  end.

(** [renameFile]: [context] lists the keys of the object with their
    values, which are strings, in the order [for (var key in context)]
    visits them.  The function has no [return]: it hands back
    [undefined] and the object it mutated. *)
Fixpoint renameFile (parsedpath : ParsedPath) (context : list (string * string))
  : Completion Value * ParsedPath :=
  match context with
  | [] => (Normal VUndefined, parsedpath)
  | (key, value) :: rest =>
      match renameFile_turn key value parsedpath with
      | (Normal _, parsedpath') => renameFile parsedpath' rest
      | (Abrupt e, parsedpath') => (Abrupt e, parsedpath')
      end
  end.

(** Some key of [context] has its placeholder in [s]. *)
Definition mentions (context : list (string * string)) (s : string) : bool :=
  existsb (fun entry => occursb (placeholder (fst entry)) s) context.

End Rename.

(** ** A small concrete world

    Paths are strings, the outside state is the list of paths that
    exist, and the collaborators are recording fakes.  The general
    theorems below are instantiated on it. *)

Module Scenario.

Definition FS : Type := list string.

Definition fs_exists (p : string) (s : FS) : bool := existsb (String.eqb p) s.

Definition fs_append (p : string) (child : string) : string := p +:+ "/" +:+ child.

(** A [git] that creates the destination of a clone and otherwise
    succeeds without touching the file system. *)
Definition fake_execute (cmd : string) (args : list string) (cwd : option string)
    (s : FS) : Outcome * FS :=
  match args with
  | [sub; _; destination] =>
      if String.eqb sub "clone" then (Fulfilled (VString "cloned"), destination :: s)
      else (Fulfilled (VString "done"), s)
  | _ => (Fulfilled (VString "done"), s)
  end.

Definition patch_failed : Value := VError "Error" "patch does not apply".

(** A repository whose download creates the destination and whose
    [patch] fails on the patch named [bad.patch]. *)
Definition fake_repository : VCS.Repository FS string :=
  {| VCS.download := fun destination s => (Fulfilled VUndefined, destination :: s);
     VCS.patch := fun _ patch s =>
       if String.eqb patch "bad.patch" then (Rejected patch_failed, s)
       else (Fulfilled VUndefined, s) |}.

Definition network_down : Value := VError "Error" "could not resolve host".

(** A repository that cannot be reached. *)
Definition unreachable_repository : VCS.Repository FS string :=
  {| VCS.download := fun _ s => (Rejected network_down, s);
     VCS.patch := fun _ _ s => (Fulfilled VUndefined, s) |}.

Definition project : Dependency.Project string :=
  {| Dependency.dirForDependency := fun name => "deps/" +:+ name;
     Dependency.dirForDependencyBuild := fun name _ => "build/" +:+ name;
     Dependency.dirForDependencyInstall := fun _ => "install" |}.

Definition host_deploy : BuildConfig.Build :=
  {| platform := PlatformHost; architecture := ArchitectureHost; isDeploy := true |}.

(** A deploy build that says so under both names. *)
Definition deploy_build : Dependency.Build :=
  {| Dependency.declared := host_deploy;
     Dependency.other_properties := {[ "releaseBuild" := VBool true ]} |}.

(** A build whose [isDeploy] is set and whose [releaseBuild] is not. *)
Definition deploy_not_release : Dependency.Build :=
  {| Dependency.declared := host_deploy;
     Dependency.other_properties := {[ "releaseBuild" := VBool false ]} |}.

(** A build with the members of [Src/Raft/BuildConfig.ts] and nothing
    else. *)
Definition deploy_as_declared : Dependency.Build :=
  {| Dependency.declared := host_deploy; Dependency.other_properties := ∅ |}.

Definition zlib_descriptor : Dependency.DependencyDescriptor :=
  {| Dependency.descriptor_name := "zlib";
     Dependency.configOptions := {[ "FOO" := VString "bar" ]} |}.

Definition zlib : Dependency.RepositoryDependency FS string :=
  Dependency.mkRepositoryDependency zlib_descriptor fake_repository ["fix1.patch"].

Definition zlib_bad_patch : Dependency.RepositoryDependency FS string :=
  Dependency.mkRepositoryDependency zlib_descriptor fake_repository
    ["fix1.patch"; "bad.patch"; "fix3.patch"].

Definition zlib_unreachable : Dependency.RepositoryDependency FS string :=
  Dependency.mkRepositoryDependency zlib_descriptor unreachable_repository ["fix1.patch"].

Definition compile_error : Value := VError "Error" "make exited with code 2".

(** A build backend whose build step fails. *)
Definition fake_configure (source build : string)
    (options : Dependency.CMakeOptions string) (s : FS) : Outcome * FS :=
  (Fulfilled VUndefined, build :: s).
Definition fake_build (build : string) (s : FS) : Outcome * FS :=
  (Fulfilled VUndefined, s).
Definition failing_build (build : string) (s : FS) : Outcome * FS :=
  (Rejected compile_error, s).
Definition fake_install (build : string) (s : FS) : Outcome * FS :=
  (Fulfilled VUndefined, "install" :: s).

Definition stream_finishes (templatePath destination : string)
    (context : list (string * string)) (s : FS) : Template.StreamEnd * FS :=
  (Template.Finish, destination :: s).

Definition busy : Value := VError "Error" "EBUSY: resource busy or locked".

(** A [rimraf] that fails and leaves the directory in place. *)
Definition failing_rimraf (path : string) (s : FS) : option Value * FS :=
  (Some busy, s).

Definition empty_world {E : Type} : World FS E := {| outside := []; history := [] |}.

Definition world_with {E : Type} (paths : list string) : World FS E :=
  {| outside := paths; history := [] |}.

End Scenario.

(** ** A dependency fetched with git *)

Module GitBacked.
Import VCS Dependency.

(** An outcome that lets the caller go on: a fulfilled promise or a
    plain value. *)
Definition succeeded (o : Outcome) : bool :=
  match failure o with
  | None => true
  | Some _ => false
  end.

Section Defs.
Context {S Path : Type}.
Variable toString : Path → string.
Variable path_exists : Path → S → bool.
Variable system_execute : string → list string → option Path → S → Outcome * S.

(** [path.exists()] as the dependency sees it: the state its repository
    works on is the world of the git repository. *)
Definition exists_in_git_world (p : Path) (w : World S (GitCall Path)) : bool :=
  path_exists p (outside w).

(** [new RepositoryDependency(descriptor, new GitRepository(uri, branch), patches)] *)
Definition git_dependency (descriptor : DependencyDescriptor) (repo : GitRepository)
    (patches : list Path) : RepositoryDependency (World S (GitCall Path)) Path :=
  mkRepositoryDependency descriptor
    (GitRepository_Repository toString path_exists system_execute repo) patches.

End Defs.

(** A [git] whose clone fails. *)
Definition clone_refused : Value := VError "Error" "fatal: repository not found".

Definition failing_clone (cmd : string) (args : list string) (cwd : option string)
    (s : Scenario.FS) : Outcome * Scenario.FS :=
  (Rejected clone_refused, s).

(** A dependency whose [download] returns [null]. *)
Definition null_download : Dependency Scenario.FS string :=
  {| dep_name := "broken";
     dep_patches := [];
     dep_download := fun _ _ s => (Plain VNull, s);
     dep_buildInstall := fun _ _ s => (Fulfilled VUndefined, s) |}.

(** A stream that ends with an error. *)
Definition failing_stream (templatePath destination : string)
    (context : list (string * string)) (s : Scenario.FS) : Template.StreamEnd * Scenario.FS :=
  (Template.Error Scenario.busy, s).

End GitBacked.

(** ** The descriptor as the mutable object it is *)

Module Lifetime.
Import VCS Dependency.

(** The state a dependency works on when its descriptor is taken as the
    object it is in the source: [descriptor] is a public member of the
    dependency and [name] a member of the descriptor that anyone holding
    the descriptor can assign.  The descriptor is therefore part of the
    state every collaborator acts on. *)
Record Heap (S : Type) : Type := mkHeap {
  held : DependencyDescriptor;
  others : S
}.
Arguments mkHeap {S} _ _.
Arguments held {S} _.
Arguments others {S} _.

(** A collaborator operation that leaves the name of the descriptor as
    it found it. *)
Definition keeps_name {S : Type} (f : Heap S → Outcome * Heap S) : Prop :=
  ∀ h, descriptor_name (held (snd (f h))) = descriptor_name (held h).

(** The two classes of the file. *)
Inductive Class : Type :=
| ClassRepositoryDependency
| ClassCMakeDependency.

(** A call a client makes on a dependency. *)
Inductive Operation (Path : Type) : Type :=
| CallDownload (project : Project Path) (build : Build)
| CallBuildInstall (project : Project Path) (build : Build)
| CallGetDependency (project : Project Path) (build : Build).
Arguments CallDownload {Path} _ _.
Arguments CallBuildInstall {Path} _ _.
Arguments CallGetDependency {Path} _ _.

Section LiveName.
Context {T Path : Type}.

(** [getDependency] on a dependency whose [name] is a getter: each of
    the three reads of [dependency.name] takes the name the dependency
    has at that moment. *)
Definition getDependency_live (project : Project Path) (build : Build)
    (name_now : T → string)
    (download buildInstall : Project Path → Build → T → Outcome * T)
  : Call T OrchCall :=
  fun w =>
    seq (raftlog (name_now (outside w)) "Downloading")
      (then_
         (then_
            (perform Download (download project build))
            (fun _ w1 =>
               seq (raftlog (name_now (outside w1)) "Building")
                   (perform BuildInstall (buildInstall project build)) w1))
         (fun _ w2 =>
            seq (raftlog (name_now (outside w2)) "Ready")
                (plain VUndefined) w2)) w.

End LiveName.

Section Objects.
Context {S Path : Type}.
Variable path_exists : Path → Heap S → bool.
Variable CMake_configure : Path → Path → CMakeOptions Path → Heap S → Outcome * Heap S.
Variable CMake_build : Path → Heap S → Outcome * Heap S.
Variable CMake_install : Path → Heap S → Outcome * Heap S.
(** The two members fixed here; only the descriptor is followed through
    the state. *)
Variable repository : Repository (Heap S) Path.
Variable patches : list Path.

(** [this], with the descriptor it holds in state [h]. *)
Definition this_in (h : Heap S) : RepositoryDependency (Heap S) Path :=
  mkRepositoryDependency (held h) repository patches.

(** [this.name] read in state [h]. *)
Definition name_in (h : Heap S) : string := name (this_in h).

(** [this.download(project, build)]: the body reads [this.name] in its
    first statement, before any collaborator is called. *)
Definition download_call (project : Project Path) (build : Build)
  : Call (Heap S) (DepCall Path) :=
  fun w => RepositoryDependency_download path_exists (this_in (outside w)) project build w.

(** [this.buildInstall(project, build)] for an object of class [c]; the
    CMake body reads [this.name] and [this.descriptor] before the first
    call to the build backend. *)
Definition buildInstall_call (c : Class) (project : Project Path) (build : Build)
  : Call (Heap S) (DepCall Path) :=
  fun w =>
    match c with
    | ClassRepositoryDependency =>
        RepositoryDependency_buildInstall (this_in (outside w)) project build w
    | ClassCMakeDependency =>
        CMakeDependency_buildInstall CMake_configure CMake_build CMake_install
          (this_in (outside w)) project build w
    end.

(** [getDependency(project, build, this)] *)
Definition getDependency_call (c : Class) (project : Project Path) (build : Build)
  : Call (World (Heap S) (DepCall Path)) OrchCall :=
  getDependency_live project build (fun t => name_in (outside t))
    (fun project build => download_call project build)
    (fun project build => buildInstall_call c project build).

(** The dependency's world after one call of a client, and after a
    list of them. *)
Definition after (c : Class) (op : Operation Path) (t : World (Heap S) (DepCall Path))
  : World (Heap S) (DepCall Path) :=
  match op with
  | CallDownload project build => snd (download_call project build t)
  | CallBuildInstall project build => snd (buildInstall_call c project build t)
  | CallGetDependency project build =>
      outside (snd (getDependency_call c project build {| outside := t; history := [] |}))
  end.

Definition after_all (c : Class) (ops : list (Operation Path))
    (t : World (Heap S) (DepCall Path)) : World (Heap S) (DepCall Path) :=
  fold_left (fun t op => after c op t) ops t.

End Objects.

(** The fakes of the concrete world, with the descriptor in the state
    and left alone. *)
Definition heap_exists (p : string) (h : Heap Scenario.FS) : bool :=
  Scenario.fs_exists p (others h).

Definition heap_repository : Repository (Heap Scenario.FS) string :=
  {| download := fun destination h =>
       (Fulfilled VUndefined, mkHeap (held h) (destination :: others h));
     patch := fun _ patch h =>
       (if String.eqb patch "bad.patch" then Rejected Scenario.patch_failed
        else Fulfilled VUndefined, h) |}.

Definition heap_configure (source build : string) (options : CMakeOptions string)
    (h : Heap Scenario.FS) : Outcome * Heap Scenario.FS :=
  (Fulfilled VUndefined, mkHeap (held h) (build :: others h)).
Definition heap_build (build : string) (h : Heap Scenario.FS)
  : Outcome * Heap Scenario.FS :=
  (Fulfilled VUndefined, h).
Definition heap_install (build : string) (h : Heap Scenario.FS)
  : Outcome * Heap Scenario.FS :=
  (Fulfilled VUndefined, mkHeap (held h) ("install" :: others h)).

(** A repository that was given the descriptor and renames it while it
    downloads. *)
Definition renaming_repository : Repository (Heap Scenario.FS) string :=
  {| download := fun destination h =>
       (Fulfilled VUndefined,
        mkHeap (mkDescriptor "renamed" (configOptions (held h)))
               (destination :: others h));
     patch := fun _ _ h => (Fulfilled VUndefined, h) |}.

Definition zlib_start : World (Heap Scenario.FS) (DepCall string) :=
  {| outside := mkHeap Scenario.zlib_descriptor []; history := [] |}.

End Lifetime.

(** * Properties *)

(** ** Sequencing combinators *)

Module AsyncFacts.

Section Facts.
Context {S E : Type}.
Implicit Types (w : World S E) (c : E).

Lemma perform_run c (f : S → Outcome * S) w :
  perform c f w =
    (fst (f (outside w)),
     {| outside := snd (f (outside w));
        history := history w ++ call_events c (fst (f (outside w))) |}).
Proof. unfold perform, perform_cb. by destruct (f (outside w)). Qed.

Lemma invoked_app (h1 h2 : list (Event E)) :
  invoked (h1 ++ h2) = invoked h1 ++ invoked h2.
Proof. apply omap_app. Qed.

End Facts.

End AsyncFacts.

(** ** The git repository *)

Module VCSFacts.
Import VCS.

Section GitFacts.
Context {S Path : Type}.
Variable toString : Path → string.
Variable path_exists : Path → S → bool.
Variable system_execute : string → list string → option Path → S → Outcome * S.

Local Abbreviation patch_of := (GitRepository_patch toString path_exists system_execute).
Local Abbreviation download_of := (GitRepository_download toString path_exists system_execute).

Lemma GitRepository_patch_skipped this repoDirectory patch (w : World S (GitCall Path)) :
  path_exists repoDirectory (outside w) && path_exists patch (outside w) = false →
  patch_of this repoDirectory patch w = (Fulfilled VUndefined, w).
Proof.
  intros Hmiss. unfold GitRepository_patch, async, bind, inspect.
  by rewrite Hmiss.
Qed.

Lemma GitRepository_patch_applied this repoDirectory patch (w : World S (GitCall Path)) :
  path_exists repoDirectory (outside w) && path_exists patch (outside w) = true →
  history (snd (patch_of this repoDirectory patch w)) =
    history w ++
    call_events (Execute "git" ["apply"; toString patch] (Some repoDirectory))
      (fst (system_execute "git" ["apply"; toString patch] (Some repoDirectory) (outside w))).
Proof.
  intros Hboth. unfold GitRepository_patch, async, bind, inspect, await, execute.
  rewrite Hboth, AsyncFacts.perform_run.
  by destruct (fst (system_execute _ _ _ _)).
Qed.

(** C7. [GitRepository.patch] starts the [git apply] process only when
    both the repository directory and the patch file exist.  When either
    is missing the call fulfils with [undefined] and the world, history
    included, is left as it was; whenever the history did change, both
    paths existed and the one call made is [git apply <patch>] in the
    repository directory. *)
Theorem GitRepository_patch_only_when_both_exist
    this repoDirectory patch (w : World S (GitCall Path)) :
  let run := patch_of this repoDirectory patch w in
  (path_exists repoDirectory (outside w) = false ∨ path_exists patch (outside w) = false →
     run = (Fulfilled VUndefined, w))
  ∧ (history (snd run) ≠ history w →
     path_exists repoDirectory (outside w) = true ∧ path_exists patch (outside w) = true)
  ∧ (path_exists repoDirectory (outside w) = true → path_exists patch (outside w) = true →
     invoked (history (snd run)) =
       invoked (history w) ++ [Execute "git" ["apply"; toString patch] (Some repoDirectory)]).
Proof.
  cbv zeta. split; [|split].
  - intros Hmiss. apply GitRepository_patch_skipped.
    apply andb_false_iff. tauto.
  - intros Hchanged.
    destruct (path_exists repoDirectory (outside w) && path_exists patch (outside w)) eqn:Hboth.
    + by apply andb_true_iff in Hboth.
    + rewrite GitRepository_patch_skipped in Hchanged; done.
  - intros Hdir Hpatch.
    rewrite GitRepository_patch_applied by (by rewrite Hdir, Hpatch).
    by rewrite AsyncFacts.invoked_app.
Qed.

Lemma getGitRepo_absent uri destination (w : World S (GitCall Path)) :
  path_exists destination (outside w) = false →
  getGitRepo toString path_exists system_execute uri destination w =
    execute system_execute "git" ["clone"; uri; toString destination] None w.
Proof. intros Habsent. unfold getGitRepo. by rewrite Habsent. Qed.

(** The half of the repository contract the code does keep: an absent
    destination is cloned, and the clone is the first process started. *)
Lemma GitRepository_download_clones_when_absent this destination
    (w : World S (GitCall Path)) :
  path_exists destination (outside w) = false →
  ∃ rest,
    invoked (history (snd (download_of this destination w))) =
      invoked (history w)
      ++ Execute "git" ["clone"; uri this; toString destination] None :: rest.
Proof.
  intros Habsent.
  unfold GitRepository_download, async, bind, await.
  rewrite getGitRepo_absent by done.
  unfold checkoutBranch, execute, perform, perform_cb, ret.
  destruct (system_execute "git" ["clone"; _; _] None _) as [o s].
  destruct (truthy (branch this)).
  - destruct (system_execute "git" ["checkout"; default "" (branch this)]
                (Some destination) s) as [o' s'] eqn:Hcheckout.
    destruct o; cbn [history snd fst outside]; rewrite ?Hcheckout;
      try (exists []; by rewrite AsyncFacts.invoked_app).
    all: exists [Execute "git" ["checkout"; default "" (branch this)] (Some destination)].
    all: destruct o'; cbn [history snd]; by rewrite !AsyncFacts.invoked_app, <- app_assoc.
  - exists []. destruct o; cbn [history snd]; by rewrite AsyncFacts.invoked_app.
Qed.

(** C8. On a destination that already exists [GitRepository.download]
    starts no process that brings the source up to date: without a
    branch the world is left exactly as it was, and with a branch the
    only process is [git checkout <branch>]. *)
Theorem GitRepository_download_existing_not_updated this destination
    (w : World S (GitCall Path)) :
  path_exists destination (outside w) = true →
  download_of this destination w =
    if truthy (branch this)
    then
      let checkout := Execute "git" ["checkout"; default "" (branch this)] (Some destination) in
      let '(o, s) := system_execute "git" ["checkout"; default "" (branch this)]
                       (Some destination) (outside w) in
      (adopt o, {| outside := s; history := history w ++ call_events checkout o |})
    else (Fulfilled VUndefined, w).
Proof.
  intros Hpresent.
  unfold GitRepository_download, async, bind, await, getGitRepo, Promise_resolve.
  rewrite Hpresent. cbn [negb].
  destruct (truthy (branch this)); [|done].
  unfold checkoutBranch, execute, perform, perform_cb.
  destruct (system_execute "git" _ _ _) as [o s]. by destruct o.
Qed.

End GitFacts.

(** On the concrete world: an existing [deps/zlib] and a repository
    without a branch.  Nothing is executed. *)
Lemma GitRepository_download_existing_not_updated_witness :
  GitRepository_download (fun p => p) Scenario.fs_exists Scenario.fake_execute
    (mkGitRepository "https://example.org/zlib.git" None) "deps/zlib"
    (Scenario.world_with ["deps/zlib"])
  = (Fulfilled VUndefined, Scenario.world_with ["deps/zlib"]).
Proof.
  exact (GitRepository_download_existing_not_updated (fun p => p) Scenario.fs_exists
           Scenario.fake_execute (mkGitRepository "https://example.org/zlib.git" None)
           "deps/zlib" (Scenario.world_with ["deps/zlib"]) eq_refl).
Defined.

Example patch_missing_directory :
  GitRepository_patch (fun p => p) Scenario.fs_exists Scenario.fake_execute
    (mkGitRepository "https://example.org/zlib.git" None) "deps/zlib" "fix1.patch"
    (Scenario.world_with ["fix1.patch"])
  = (Fulfilled VUndefined, Scenario.world_with ["fix1.patch"]).
Proof. reflexivity. Qed.

Example patch_missing_patch_file :
  GitRepository_patch (fun p => p) Scenario.fs_exists Scenario.fake_execute
    (mkGitRepository "https://example.org/zlib.git" None) "deps/zlib" "fix1.patch"
    (Scenario.world_with ["deps/zlib"])
  = (Fulfilled VUndefined, Scenario.world_with ["deps/zlib"]).
Proof. reflexivity. Qed.

Example patch_both_present :
  invoked (history (snd (
    GitRepository_patch (fun p => p) Scenario.fs_exists Scenario.fake_execute
      (mkGitRepository "https://example.org/zlib.git" None) "deps/zlib" "fix1.patch"
      (Scenario.world_with ["deps/zlib"; "fix1.patch"]))))
  = [Execute "git" ["apply"; "fix1.patch"] (Some "deps/zlib")].
Proof. reflexivity. Qed.

End VCSFacts.

(** ** Dependencies *)

Module DependencyFacts.
Import VCS Dependency PatchOrder.

Section RepositoryDependencyFacts.
Context {S Path : Type}.
Variable path_exists : Path → S → bool.

Local Abbreviation download_of := (RepositoryDependency_download path_exists).

Lemma patch_loop_cons this dir p ps (w : World S (DepCall Path)) :
  patch_loop this dir (p :: ps) w =
    let o := fst (VCS.patch (repository this) dir p (outside w)) in
    let w1 := {| outside := snd (VCS.patch (repository this) dir p (outside w));
                 history := history w ++ call_events (RepoPatch dir p) o |} in
    match failure o with
    | None => patch_loop this dir ps w1
    | Some e => (Abrupt e, w1)
    end.
Proof.
  unfold patch_loop. cbn [for_of]. unfold bind, await.
  rewrite AsyncFacts.perform_run.
  by destruct (fst (VCS.patch (repository this) dir p (outside w))).
Qed.

(** The loop of [download] does what the specification of the patch
    phase says. *)
Lemma patch_loop_refines this dir ps (w : World S (DepCall Path)) :
  let applied := spec_apply_patches (repository this) dir ps (outside w) in
  patch_loop this dir ps w =
    (match stopped_by applied with
     | None => Normal tt
     | Some e => Abrupt e
     end,
     {| outside := final applied;
        history :=
          history w ++ settled_calls (map (RepoPatch dir) ps) (outcomes applied) |}).
Proof.
  cbv zeta. revert w. induction ps as [|p ps IH]; intros w.
  - cbn. rewrite app_nil_r. by destruct w.
  - rewrite patch_loop_cons. cbv zeta. cbn [spec_apply_patches].
    destruct (VCS.patch (repository this) dir p (outside w)) as [o s]. cbn [fst snd].
    destruct (failure o) as [e|] eqn:Hfail; cbn [stopped_by final outcomes map].
    + unfold settled_calls. cbn. by rewrite zip_with_nil_r.
    + rewrite IH. cbn [outside history]. by rewrite <- app_assoc.
Qed.

(** The shape of what the specification of the patch phase yields: no
    more outcomes than patches, each the answer of [repository.patch]
    for the patch at its place, all successes but possibly the last; the
    sequence was stopped exactly when the last outcome is a failure, and
    every patch was attempted when it was not stopped. *)
Lemma spec_apply_patches_shape (repo : Repository S Path) dir ps s :
  let applied := spec_apply_patches repo dir ps s in
  length (outcomes applied) ≤ length ps
  ∧ (∀ i o, outcomes applied !! i = Some o →
       ∃ p s', ps !! i = Some p ∧ o = fst (VCS.patch repo dir p s'))
  ∧ match stopped_by applied with
    | None =>
        length (outcomes applied) = length ps
        ∧ Forall (fun o => failure o = None) (outcomes applied)
    | Some e =>
        ∃ before o, outcomes applied = before ++ [o]
          ∧ Forall (fun o => failure o = None) before ∧ failure o = Some e
    end.
Proof.
  cbv zeta. revert s. induction ps as [|p ps IH]; intros s.
  - cbn. split; [lia|]. split; [by intros i o|]. by split.
  - cbn [spec_apply_patches].
    destruct (VCS.patch repo dir p s) as [o s1] eqn:Hp.
    destruct (failure o) as [e|] eqn:Hfail; cbn [outcomes stopped_by length].
    + split; [lia|]. split.
      * intros [|i] o' Hi; [|done]. injection Hi as <-.
        exists p, s. by rewrite Hp.
      * by exists [], o.
    + destruct (IH s1) as (Hlen & Hanswers & Hshape). split; [lia|]. split.
      * intros [|i] o' Hi.
        -- injection Hi as <-. exists p, s. by rewrite Hp.
        -- by apply Hanswers.
      * destruct (stopped_by (spec_apply_patches repo dir ps s1)).
        -- destruct Hshape as (before & o' & -> & Hall & Hfail').
           exists (o :: before), o'. split; [done|]. split; [by constructor|done].
        -- destruct Hshape as [Hl Hall]. split; [by rewrite Hl | by constructor].
Qed.

(** C2. When the dependency's directory already exists, [download]
    fulfils and leaves the world as it found it: the history gets no
    [repository.download] and no [repository.patch].  A second call, made
    where the first one ended, does nothing either. *)
Theorem RepositoryDependency_download_existing_is_noop
    (this : RepositoryDependency S Path) project build (w : World S (DepCall Path)) :
  path_exists (dirForDependency project (name this)) (outside w) = true →
  download_of this project build w = (Fulfilled VUndefined, w)
  ∧ download_of this project build (snd (download_of this project build w))
    = (Fulfilled VUndefined, w).
Proof.
  intros Hpresent.
  assert (Hfirst : download_of this project build w = (Fulfilled VUndefined, w)).
  { unfold RepositoryDependency_download, async, bind, inspect. by rewrite Hpresent. }
  by rewrite !Hfirst.
Qed.

Lemma RepositoryDependency_download_absent_run
    (this : RepositoryDependency S Path) project build (w : World S (DepCall Path)) :
  let dir := dirForDependency project (name this) in
  let fetched := fst (VCS.download (repository this) dir (outside w)) in
  let w1 := {| outside := snd (VCS.download (repository this) dir (outside w));
               history := history w ++ call_events (RepoDownload dir) fetched |} in
  path_exists dir (outside w) = false →
  download_of this project build w =
    match failure fetched with
    | Some e => (Rejected e, w1)
    | None =>
        match patch_loop this dir (patches this) w1 with
        | (Normal _, w2) => (Fulfilled VUndefined, w2)
        | (Abrupt e, w2) => (Rejected e, w2)
        end
    end.
Proof.
  cbv zeta. intros Habsent.
  unfold RepositoryDependency_download, async, bind, inspect, await.
  rewrite Habsent, AsyncFacts.perform_run.
  destruct (fst (VCS.download (repository this) _ (outside w))); cbn [failure]; try done.
  all: by destruct (patch_loop this _ (patches this) _) as [[[]|e] w2].
Qed.

(** C3. When the dependency's directory is absent, [download] calls
    [repository.download] on it first.  If that fails, [download]
    rejects with its error and no patch is attempted.  Otherwise
    [download] does what the specification of the patch phase says, from
    the state [repository.download] left: it calls [repository.patch] on
    the entries of [patches] in array order, each in the state the
    previous call left, stops at the first one that fails and rejects
    with its error, and fulfils when every entry was applied.  The
    outcomes in the history are the answers of [repository.patch], and
    the state at the end is the one the last call left. *)
Theorem RepositoryDependency_download_absent_patches_in_order
    (this : RepositoryDependency S Path) project build (w : World S (DepCall Path)) :
  let dir := dirForDependency project (name this) in
  let fetched := VCS.download (repository this) dir (outside w) in
  let applied := spec_apply_patches (repository this) dir (patches this) (snd fetched) in
  path_exists dir (outside w) = false →
  download_of this project build w =
    match failure (fst fetched) with
    | Some e =>
        (Rejected e,
         {| outside := snd fetched;
            history := history w ++ call_events (RepoDownload dir) (fst fetched) |})
    | None =>
        (match stopped_by applied with
         | None => Fulfilled VUndefined
         | Some e => Rejected e
         end,
         {| outside := final applied;
            history :=
              history w ++ call_events (RepoDownload dir) (fst fetched)
                        ++ settled_calls (map (RepoPatch dir) (patches this))
                             (outcomes applied) |})
    end
  ∧ length (outcomes applied) ≤ length (patches this)
  ∧ (∀ i o, outcomes applied !! i = Some o →
       ∃ p s', patches this !! i = Some p
         ∧ o = fst (VCS.patch (repository this) dir p s'))
  ∧ match stopped_by applied with
    | None =>
        length (outcomes applied) = length (patches this)
        ∧ Forall (fun o => failure o = None) (outcomes applied)
    | Some e =>
        ∃ before o, outcomes applied = before ++ [o]
          ∧ Forall (fun o => failure o = None) before ∧ failure o = Some e
    end.
Proof.
  cbv zeta. intros Habsent.
  split; [|apply spec_apply_patches_shape].
  rewrite RepositoryDependency_download_absent_run by done. cbv zeta.
  destruct (failure (fst (VCS.download (repository this) _ (outside w)))); [done|].
  rewrite patch_loop_refines. cbv zeta. cbn [outside history].
  rewrite <- app_assoc.
  by destruct (stopped_by _).
Qed.

End RepositoryDependencyFacts.

(** On the concrete world: [deps/zlib] is there already. *)
Lemma RepositoryDependency_download_existing_is_noop_witness :
  let w : World Scenario.FS (DepCall string) := Scenario.world_with ["deps/zlib"] in
  let download :=
    RepositoryDependency_download Scenario.fs_exists Scenario.zlib
      Scenario.project Scenario.deploy_build in
  download w = (Fulfilled VUndefined, w)
  ∧ download (snd (download w)) = (Fulfilled VUndefined, w).
Proof.
  exact (RepositoryDependency_download_existing_is_noop Scenario.fs_exists Scenario.zlib
           Scenario.project Scenario.deploy_build (Scenario.world_with ["deps/zlib"])
           eq_refl).
Defined.

(** On the concrete world: nothing exists yet and the second of three
    patches does not apply. *)
Lemma RepositoryDependency_download_absent_patches_in_order_witness :
  RepositoryDependency_download Scenario.fs_exists Scenario.zlib_bad_patch
    Scenario.project Scenario.deploy_build Scenario.empty_world
  = (Rejected Scenario.patch_failed,
     {| outside := ["deps/zlib"];
        history :=
          call_events (RepoDownload "deps/zlib") (Fulfilled VUndefined)
          ++ settled_calls
               (map (RepoPatch "deps/zlib") ["fix1.patch"; "bad.patch"; "fix3.patch"])
               [Fulfilled VUndefined; Rejected Scenario.patch_failed] |}).
Proof.
  exact (proj1 (RepositoryDependency_download_absent_patches_in_order Scenario.fs_exists
                  Scenario.zlib_bad_patch Scenario.project Scenario.deploy_build
                  Scenario.empty_world eq_refl)).
Defined.

Example specification_stops_at_the_failing_patch :
  spec_apply_patches Scenario.fake_repository "deps/zlib"
    ["fix1.patch"; "bad.patch"; "fix3.patch"] ["deps/zlib"]
  = {| outcomes := [Fulfilled VUndefined; Rejected Scenario.patch_failed];
       stopped_by := Some Scenario.patch_failed;
       final := ["deps/zlib"] |}.
Proof. reflexivity. Qed.

Example download_stops_at_the_failing_patch :
  RepositoryDependency_download Scenario.fs_exists Scenario.zlib_bad_patch
    Scenario.project Scenario.deploy_build Scenario.empty_world
  = (Rejected Scenario.patch_failed,
     {| outside := ["deps/zlib"];
        history :=
          [ Invoke (RepoDownload "deps/zlib");
            Settle (RepoDownload "deps/zlib") (Fulfilled VUndefined);
            Invoke (RepoPatch "deps/zlib" "fix1.patch");
            Settle (RepoPatch "deps/zlib" "fix1.patch") (Fulfilled VUndefined);
            Invoke (RepoPatch "deps/zlib" "bad.patch");
            Settle (RepoPatch "deps/zlib" "bad.patch") (Rejected Scenario.patch_failed) ] |}).
Proof. reflexivity. Qed.

Example download_unreachable_repository_applies_no_patch :
  RepositoryDependency_download Scenario.fs_exists Scenario.zlib_unreachable
    Scenario.project Scenario.deploy_build Scenario.empty_world
  = (Rejected Scenario.network_down,
     {| outside := [];
        history :=
          [ Invoke (RepoDownload "deps/zlib");
            Settle (RepoDownload "deps/zlib") (Rejected Scenario.network_down) ] |}).
Proof. reflexivity. Qed.

End DependencyFacts.

(** ** The CMake dependency *)

Module CMakeFacts.
Import VCS Dependency.

Section BuildInstallFacts.
Context {S Path : Type}.
Variable CMake_configure : Path → Path → CMakeOptions Path → S → Outcome * S.
Variable CMake_build : Path → S → Outcome * S.
Variable CMake_install : Path → S → Outcome * S.

Local Abbreviation buildInstall_of :=
  (CMakeDependency_buildInstall CMake_configure CMake_build CMake_install).

(** What one run of [CMakeDependency.buildInstall] does, step by step. *)
Lemma CMakeDependency_buildInstall_run
    (this : RepositoryDependency S Path) project build (w : World S (DepCall Path)) :
  let source := dirForDependency project (name this) in
  let target := dirForDependencyBuild project (name this) build in
  let configure := CMakeConfigure source target (cmakeOptions this project build) in
  let '(o1, s1) := CMake_configure source target (cmakeOptions this project build)
                     (outside w) in
  let h1 := history w ++ call_events configure o1 in
  buildInstall_of this project build w =
    match o1 with
    | Fulfilled _ =>
        let '(o2, s2) := CMake_build target s1 in
        let h2 := h1 ++ call_events (CMakeBuild target) o2 in
        match failure o2 with
        | None =>
            let '(o3, s3) := CMake_install target s2 in
            (adopt o3,
             {| outside := s3; history := h2 ++ call_events (CMakeInstall target) o3 |})
        | Some e => (Rejected e, {| outside := s2; history := h2 |})
        end
    | Rejected e => (Rejected e, {| outside := s1; history := h1 |})
    | Plain _ => (Threw TypeError, {| outside := s1; history := h1 |})
    | Threw e => (Threw e, {| outside := s1; history := h1 |})
    end.
Proof.
  cbv zeta. unfold CMakeDependency_buildInstall, then_, perform, perform_cb.
  destruct (CMake_configure _ _ _ _) as [o1 s1].
  destruct o1; try done. cbn [outside].
  destruct (CMake_build _ s1) as [o2 s2].
  destruct o2; cbn [adopt failure outside]; try done.
  all: by destruct (CMake_install _ s2) as [o3 s3].
Qed.

(** The calls of a run, whatever the backend does: a prefix of
    configure, build, install, each begun after the previous succeeded. *)
Lemma CMakeDependency_buildInstall_history
    (this : RepositoryDependency S Path) project build (w : World S (DepCall Path)) :
  let source := dirForDependency project (name this) in
  let target := dirForDependencyBuild project (name this) build in
  let configure := CMakeConfigure source target (cmakeOptions this project build) in
  ∃ before last,
    history (snd (buildInstall_of this project build w)) =
      history w ++ settled_calls [configure; CMakeBuild target; CMakeInstall target]
                     (before ++ [last])
    ∧ length (before ++ [last]) ≤ 3
    ∧ Forall (fun o => failure o = None) before.
Proof.
  cbv zeta.
  pose proof (CMakeDependency_buildInstall_run this project build w) as Hrun.
  cbv zeta in Hrun.
  destruct (CMake_configure _ _ _ (outside w)) as [o1 s1].
  destruct o1 as [v1|e|v1|e]; rewrite Hrun.
  2: by exists [], (Rejected e); cbn; split; [|split; [lia|constructor]].
  2: by exists [], (Plain v1); cbn; split; [|split; [lia|constructor]].
  2: by exists [], (Threw e); cbn; split; [|split; [lia|constructor]].
  destruct (CMake_build _ s1) as [o2 s2].
  destruct (failure o2) as [e|] eqn:Hbuild.
  - exists [Fulfilled v1], o2. cbn. rewrite <- app_assoc.
    split; [done|]. split; [lia|]. by repeat constructor.
  - destruct (CMake_install _ s2) as [o3 s3].
    exists [Fulfilled v1; o2], o3. cbn. rewrite <- !app_assoc.
    split; [done|]. split; [lia|]. by repeat constructor.
Qed.

(** C4. [CMakeDependency.buildInstall] calls the backend's configure,
    build and install in that order, each begun only after the previous
    one succeeded.  A rejected configure ends the run with that
    rejection after the one call; a rejected build ends it after two
    calls, install never being invoked; otherwise install is the third
    and last call and its outcome is the result.  In every case the
    world is the one the last step left: nothing is cleaned up. *)
Theorem CMakeDependency_buildInstall_pipeline
    (this : RepositoryDependency S Path) project build (w : World S (DepCall Path)) :
  let source := dirForDependency project (name this) in
  let target := dirForDependencyBuild project (name this) build in
  let options := cmakeOptions this project build in
  let configure := CMakeConfigure source target options in
  let run := buildInstall_of this project build w in
  (∃ before last,
      history (snd run) =
        history w ++ settled_calls [configure; CMakeBuild target; CMakeInstall target]
                       (before ++ [last])
      ∧ length (before ++ [last]) ≤ 3
      ∧ Forall (fun o => failure o = None) before)
  ∧ (∀ e s1,
      CMake_configure source target options (outside w) = (Rejected e, s1) →
      run = (Rejected e,
             {| outside := s1;
                history := history w ++ call_events configure (Rejected e) |}))
  ∧ (∀ v1 s1 e s2,
      CMake_configure source target options (outside w) = (Fulfilled v1, s1) →
      CMake_build target s1 = (Rejected e, s2) →
      run = (Rejected e,
             {| outside := s2;
                history := history w ++ call_events configure (Fulfilled v1)
                                     ++ call_events (CMakeBuild target) (Rejected e) |}))
  ∧ (∀ v1 s1 v2 s2 o3 s3,
      CMake_configure source target options (outside w) = (Fulfilled v1, s1) →
      CMake_build target s1 = (Fulfilled v2, s2) →
      CMake_install target s2 = (o3, s3) →
      run = (adopt o3,
             {| outside := s3;
                history := history w ++ call_events configure (Fulfilled v1)
                                     ++ call_events (CMakeBuild target) (Fulfilled v2)
                                     ++ call_events (CMakeInstall target) o3 |})).
Proof.
  cbv zeta. split; [apply CMakeDependency_buildInstall_history|].
  pose proof (CMakeDependency_buildInstall_run this project build w) as Hrun.
  cbv zeta in Hrun.
  destruct (CMake_configure _ _ _ (outside w)) as [o1 s1].
  split; [|split].
  - intros e s [= -> ->]. by rewrite Hrun.
  - intros v1 s e s2 [= -> ->] Hbuild. rewrite Hrun, Hbuild. cbn.
    by rewrite <- app_assoc.
  - intros v1 s v2 s2 o3 s3 [= -> ->] Hbuild Hinstall.
    rewrite Hrun, Hbuild. cbn. rewrite Hinstall. by rewrite <- !app_assoc.
Qed.

(** C5, as amended.  The options handed to configure carry the install
    directory as prefix, the build's platform and the descriptor's
    [configOptions] unchanged, and as release flag the value read from
    [build.releaseBuild]. *)
Theorem cmakeOptions_release_flag_is_releaseBuild
    (this : RepositoryDependency S Path) project build (w : World S (DepCall Path)) :
  let options := cmakeOptions this project build in
  (∃ rest,
      history (snd (buildInstall_of this project build w)) =
        history w
        ++ Invoke (CMakeConfigure (dirForDependency project (name this))
                     (dirForDependencyBuild project (name this) build) options) :: rest)
  ∧ installPrefix options = dirForDependencyInstall project build
  ∧ releaseFlag options = Some (Build_get build "releaseBuild")
  ∧ targetPlatform options = Some (platform (declared build))
  ∧ backendOptions options = Some (configOptions (descriptor this)).
Proof.
  cbv zeta. split; [|by repeat split].
  destruct (CMakeDependency_buildInstall_history this project build w)
    as (before & last & Hh & _).
  rewrite Hh. destruct before; cbn; eauto.
Qed.

(** C6. [RepositoryDependency.buildInstall] touches nothing, but what
    it returns is [null] and not a promise: chaining [then] on its
    result throws. *)
Theorem RepositoryDependency_buildInstall_returns_null
    (this : RepositoryDependency S Path) project build (w : World S (DepCall Path)) :
  RepositoryDependency_buildInstall this project build w = (Plain VNull, w)
  ∧ ∀ callback,
      then_ (RepositoryDependency_buildInstall this project build) callback w
      = (Threw TypeError, w).
Proof. done. Qed.

End BuildInstallFacts.

(** C5 as first stated fails: with [isDeploy] set and [releaseBuild]
    unset the release flag is [false], and on a build that has only the
    declared members it is [undefined]. *)
Lemma release_flag_is_not_isDeploy :
  let release := fun build : Build =>
    releaseFlag (cmakeOptions Scenario.zlib Scenario.project build) in
  release Scenario.deploy_not_release = Some (VBool false)
  ∧ release Scenario.deploy_not_release
    ≠ Some (VBool (isDeploy (declared Scenario.deploy_not_release)))
  ∧ release Scenario.deploy_as_declared = Some VUndefined
  ∧ release Scenario.deploy_as_declared
    ≠ Some (VBool (isDeploy (declared Scenario.deploy_as_declared))).
Proof. by repeat split. Qed.

Example options_for_a_deploy_build :
  let options := cmakeOptions Scenario.zlib Scenario.project Scenario.deploy_build in
  releaseFlag options = Some (VBool true)
  ∧ targetPlatform options = Some PlatformHost
  ∧ installPrefix options = "install"
  ∧ backendOptions options = Some {[ "FOO" := VString "bar" ]}.
Proof. by repeat split. Qed.

Example failing_build_prevents_install :
  invoked (history (snd (
    CMakeDependency_buildInstall Scenario.fake_configure Scenario.failing_build
      Scenario.fake_install Scenario.zlib Scenario.project Scenario.deploy_build
      (Scenario.world_with ["deps/zlib"]))))
  = [ CMakeConfigure "deps/zlib" "build/zlib"
        (cmakeOptions Scenario.zlib Scenario.project Scenario.deploy_build);
      CMakeBuild "build/zlib" ]
  ∧ fst (CMakeDependency_buildInstall Scenario.fake_configure Scenario.failing_build
      Scenario.fake_install Scenario.zlib Scenario.project Scenario.deploy_build
      (Scenario.world_with ["deps/zlib"]))
    = Rejected Scenario.compile_error.
Proof. by split. Qed.

End CMakeFacts.

(** ** The orchestrator *)

Module OrchestratorFacts.
Import VCS Dependency.

Section GetDependencyFacts.
Context {T Path : Type}.
Implicit Types (dependency : Dependency T Path) (w : World T OrchCall).

(** What one run of [getDependency] does, step by step. *)
Lemma getDependency_run (project : Project Path) build dependency w :
  let log := fun message =>
    call_events (Raftlog (dep_name dependency) message) (Plain VUndefined) in
  let '(d, t1) := dep_download dependency project build (outside w) in
  let h1 := history w ++ log "Downloading" ++ call_events Download d in
  getDependency project build dependency w =
    match d with
    | Fulfilled _ =>
        let '(b, t2) := dep_buildInstall dependency project build t1 in
        let h2 := h1 ++ log "Building" ++ call_events BuildInstall b in
        match failure b with
        | None => (Fulfilled VUndefined, {| outside := t2; history := h2 ++ log "Ready" |})
        | Some e => (Rejected e, {| outside := t2; history := h2 |})
        end
    | Rejected e => (Rejected e, {| outside := t1; history := h1 |})
    | Plain _ => (Threw TypeError, {| outside := t1; history := h1 |})
    | Threw e => (Threw e, {| outside := t1; history := h1 |})
    end.
Proof.
  cbv zeta.
  unfold getDependency, seq, then_, raftlog, plain, perform, perform_cb. cbn [outside history].
  destruct (dep_download dependency project build (outside w)) as [d t1].
  destruct d; cbn [call_events outside history]; rewrite <- ?app_assoc; try done.
  destruct (dep_buildInstall dependency project build t1) as [b t2].
  destruct b; cbn [adopt failure call_events outside history]; by rewrite <- ?app_assoc.
Qed.

(** C1. [getDependency] invokes [buildInstall] only after the promise
    of [download] has fulfilled: in the events a run appends, every
    invocation of [buildInstall] comes after a fulfilled settlement of
    [download].  When [download] rejects, the run rejects with the same
    reason, and what it appended ends with that rejection: [buildInstall]
    is not invoked and nothing is done afterwards. *)
Theorem getDependency_builds_only_after_download
    (project : Project Path) build dependency w :
  let run := getDependency project build dependency w in
  (∀ pre post,
      history (snd run) = history w ++ pre ++ Invoke BuildInstall :: post →
      ∃ v, Settle Download (Fulfilled v) ∈ pre)
  ∧ (∀ e t,
      dep_download dependency project build (outside w) = (Rejected e, t) →
      run = (Rejected e,
             {| outside := t;
                history :=
                  history w
                  ++ call_events (Raftlog (dep_name dependency) "Downloading")
                       (Plain VUndefined)
                  ++ call_events Download (Rejected e) |})
      ∧ BuildInstall ∉ invoked (drop (length (history w)) (history (snd run)))).
Proof.
  cbv zeta.
  pose proof (getDependency_run project build dependency w) as Hrun. cbv zeta in Hrun.
  destruct (dep_download dependency project build (outside w)) as [d t1].
  split.
  - intros pre post Hsplit. rewrite Hrun in Hsplit.
    destruct d as [v|e|v|e]; cbn [snd history] in Hsplit.
    2-4: apply app_inv_head in Hsplit; by split_written_list.
    destruct (dep_buildInstall dependency project build t1) as [b t2].
    exists v.
    destruct (failure b); cbn [snd history] in Hsplit;
      rewrite <- ?app_assoc in Hsplit; apply app_inv_head in Hsplit;
      split_written_list; set_solver.
  - intros e t [= -> ->]. rewrite Hrun. split; [done|].
    cbn [snd history]. rewrite drop_app_length. cbn.
    intros Hin. by member_of_written_list Hin.
Qed.

End GetDependencyFacts.

Section RepositoryDependencyOrchestration.
Context {S Path : Type}.
Variable path_exists : Path → S → bool.
Variable CMake_configure : Path → Path → CMakeOptions Path → S → Outcome * S.
Variable CMake_build : Path → S → Outcome * S.
Variable CMake_install : Path → S → Outcome * S.

Local Abbreviation source_only := (RepositoryDependency_Dependency path_exists).
Local Abbreviation cmake_built :=
  (CMakeDependency_Dependency path_exists CMake_configure CMake_build CMake_install).

(** Under [getDependency] the [null] of
    [RepositoryDependency.buildInstall] is the return value of a [then]
    callback, so the chain goes on to log "Ready". *)
Lemma getDependency_source_only_ready
    (this : RepositoryDependency S Path) project build
    (w : World (World S (DepCall Path)) OrchCall) v inner :
  RepositoryDependency_download path_exists this project build (outside w)
    = (Fulfilled v, inner) →
  getDependency project build (source_only this) w =
    (Fulfilled VUndefined,
     {| outside := inner;
        history :=
          history w
          ++ call_events (Raftlog (name this) "Downloading") (Plain VUndefined)
          ++ call_events Download (Fulfilled v)
          ++ call_events (Raftlog (name this) "Building") (Plain VUndefined)
          ++ call_events BuildInstall (Plain VNull)
          ++ call_events (Raftlog (name this) "Ready") (Plain VUndefined) |}).
Proof.
  intros Hdl.
  pose proof (getDependency_run project build (source_only this) w) as Hrun.
  cbv zeta in Hrun. cbn [dep_download dep_buildInstall dep_name source_only] in Hrun.
  unfold RepositoryDependency_Dependency in Hrun. cbn in Hrun.
  cbn. rewrite Hdl in Hrun. cbn in Hrun. rewrite Hrun.
  by rewrite <- !app_assoc.
Qed.

End RepositoryDependencyOrchestration.

(** The end-to-end scenario of the specification: [zlib] with one patch,
    built with CMake, nothing on disk at the start. *)
Example zlib_end_to_end :
  let dependency :=
    CMakeDependency_Dependency Scenario.fs_exists Scenario.fake_configure
      Scenario.fake_build Scenario.fake_install Scenario.zlib in
  let run :=
    getDependency Scenario.project Scenario.deploy_build dependency
      {| outside := Scenario.empty_world; history := [] |} in
  fst run = Fulfilled VUndefined
  ∧ invoked (history (snd run))
    = [ Raftlog "zlib" "Downloading"; Download;
        Raftlog "zlib" "Building"; BuildInstall;
        Raftlog "zlib" "Ready" ]
  ∧ invoked (history (outside (snd run)))
    = [ RepoDownload "deps/zlib";
        RepoPatch "deps/zlib" "fix1.patch";
        CMakeConfigure "deps/zlib" "build/zlib"
          (cmakeOptions Scenario.zlib Scenario.project Scenario.deploy_build);
        CMakeBuild "build/zlib";
        CMakeInstall "build/zlib" ]
  ∧ Scenario.fs_exists "deps/zlib" (outside (outside (snd run))) = true.
Proof. by repeat split. Qed.

Example unreachable_repository_is_never_built :
  let dependency :=
    CMakeDependency_Dependency Scenario.fs_exists Scenario.fake_configure
      Scenario.fake_build Scenario.fake_install Scenario.zlib_unreachable in
  let run :=
    getDependency Scenario.project Scenario.deploy_build dependency
      {| outside := Scenario.empty_world; history := [] |} in
  fst run = Rejected Scenario.network_down
  ∧ invoked (history (snd run)) = [ Raftlog "zlib" "Downloading"; Download ].
Proof. by split. Qed.

End OrchestratorFacts.

(** ** Templates *)

Module TemplateFacts.
Import Template.

Section InstantiateFacts.
Context {S Path : Type}.
Variable toString : Path → string.
Variable append : Path → string → Path.
Variable gulp_stream : Path → Path → list (string * string) → S → StreamEnd * S.
Variable rimraf : string → S → option Value * S.

Local Abbreviation instantiate_of :=
  (instantiateRepositoryTemplate toString append gulp_stream rimraf).

Lemma instantiateTemplate_run templatePath destination context
    (w : World S (TemplateCall Path)) :
  instantiateTemplate gulp_stream templatePath destination context w =
    let '(stream_end, s) := gulp_stream templatePath destination context (outside w) in
    let o := match stream_end with
             | Finish => Fulfilled VUndefined
             | Error e => Rejected e
             end in
    (o, {| outside := s;
           history := history w ++ call_events (GulpStream templatePath destination) o |}).
Proof. reflexivity. Qed.

(** C10. Once the repository has been downloaded and the template
    stream has finished, [instantiateRepositoryTemplate] fulfils whatever
    [rimraf] reports about removing the [.template] directory: the
    error handed to the callback is dropped. *)
Theorem instantiateRepositoryTemplate_discards_cleanup_error
    (repo : VCS.Repository S Path) destination context
    (w : World S (TemplateCall Path)) fetched s1 s2 (err : option Value) s3 :
  let repoLocation := append destination ".template" in
  VCS.download repo repoLocation (outside w) = (fetched, s1) →
  failure fetched = None →
  gulp_stream repoLocation destination context s1 = (Finish, s2) →
  rimraf (toString repoLocation) s2 = (err, s3) →
  instantiate_of repo destination context w =
    (Fulfilled VUndefined,
     {| outside := s3;
        history :=
          history w
          ++ call_events (RepoDownload repoLocation) fetched
          ++ call_events (GulpStream repoLocation destination) (Fulfilled VUndefined)
          ++ call_events (Rimraf (toString repoLocation)) (Fulfilled VUndefined) |}).
Proof.
  cbv zeta. intros Hfetch Hok Hstream Hrm.
  unfold instantiateRepositoryTemplate, instantiateTemplate, async, bind, await.
  unfold new_Promise, perform, perform_cb.
  rewrite Hfetch. cbn [outside history].
  destruct fetched; try done; cbn [outside history]; rewrite Hstream;
    cbn [outside history]; rewrite Hrm; by rewrite <- !app_assoc.
Qed.

End InstantiateFacts.

(** On the concrete world: the clone and the stream succeed and
    [rimraf] fails with [EBUSY]. *)
Lemma instantiateRepositoryTemplate_discards_cleanup_error_witness :
  fst (instantiateRepositoryTemplate (fun p => p) Scenario.fs_append
         Scenario.stream_finishes Scenario.failing_rimraf
         Scenario.fake_repository "app" [("name", "demo")] Scenario.empty_world)
  = Fulfilled VUndefined.
Proof.
  exact (f_equal fst
    (instantiateRepositoryTemplate_discards_cleanup_error (fun p => p) Scenario.fs_append
       Scenario.stream_finishes Scenario.failing_rimraf Scenario.fake_repository
       "app" [("name", "demo")] Scenario.empty_world
       (Fulfilled VUndefined) ["app/.template"] ["app"; "app/.template"]
       (Some Scenario.busy) ["app"; "app/.template"]
       eq_refl eq_refl eq_refl eq_refl)).
Defined.

Example failed_stream_rejects_and_skips_cleanup :
  let failing_stream := fun (_ _ : string) (_ : list (string * string)) (s : Scenario.FS) =>
    (Error Scenario.busy, s) in
  let run :=
    instantiateRepositoryTemplate (fun p => p) Scenario.fs_append
      failing_stream Scenario.failing_rimraf
      Scenario.fake_repository "app" [("name", "demo")] Scenario.empty_world in
  fst run = Rejected Scenario.busy
  ∧ invoked (history (snd run))
    = [RepoDownload "app/.template"; GulpStream "app/.template" "app"].
Proof. by split. Qed.

End TemplateFacts.

(** ** Renaming the files of a template *)

Module RenameFacts.
Import Rename.

Lemma append_cons (c : Ascii.ascii) (a b : string) :
  String c a +:+ b = String c (a +:+ b).
Proof. reflexivity. Qed.

Lemma append_nil_l (s : string) : "" +:+ s = s.
Proof. reflexivity. Qed.

Lemma append_nil_r (s : string) : s +:+ "" = s.
Proof. induction s as [|c s IH]; [done|]. by rewrite append_cons, IH. Qed.

Lemma append_assoc (a b c : string) : (a +:+ b) +:+ c = a +:+ (b +:+ c).
Proof. induction a as [|x a IH]; [done|]. by rewrite !append_cons, IH. Qed.

Lemma length_append (a b : string) :
  String.length (a +:+ b) = String.length a + String.length b.
Proof. induction a as [|x a IH]; [done|]. rewrite append_cons. cbn. by rewrite IH. Qed.

Lemma strip_prefix_spec (sep s after : string) :
  strip_prefix sep s = Some after ↔ s = sep +:+ after.
Proof.
  revert s. induction sep as [|a sep IH]; intros s; cbn.
  - split; [by intros [= ->] | by intros ->].
  - destruct s as [|b s]; [by split|].
    destruct (Ascii.eqb_spec a b) as [->|Hne].
    + rewrite IH. split; [by intros -> | by intros [= ->]].
    + split; [done | intros [= -> _]; done].
Qed.

Lemma strip_prefix_length (sep s after : string) :
  strip_prefix sep s = Some after →
  String.length s = String.length sep + String.length after.
Proof. intros ->%strip_prefix_spec. apply length_append. Qed.

Lemma split_scan_end fuel sep cur : split_scan fuel sep cur "" = [cur].
Proof. by destruct fuel. Qed.

Lemma split_scan_not_nil fuel sep cur rest : split_scan fuel sep cur rest ≠ [].
Proof.
  revert sep cur rest. induction fuel as [|fuel IH]; intros sep cur [|c rest]; cbn; try done.
  destruct (strip_prefix sep (String c rest)); [done | apply IH].
Qed.

Lemma join_cons separator part parts :
  parts ≠ [] →
  join separator (part :: parts) = part +:+ separator +:+ join separator parts.
Proof. by destruct parts. Qed.

(** More fuel than the length of the string changes nothing. *)
Lemma split_scan_fuel n m a sep cur rest :
  String.length rest ≤ n → String.length rest ≤ m →
  split_scan n (String a sep) cur rest = split_scan m (String a sep) cur rest.
Proof.
  revert m cur rest. induction n as [|n IH]; intros m cur [|c rest]; cbn [String.length];
    intros Hn Hm; rewrite ?split_scan_end; try done; try lia.
  destruct m as [|m]; [lia|]. cbn [split_scan].
    destruct (strip_prefix (String a sep) (String c rest)) as [after|] eqn:Hstrip.
    + apply strip_prefix_length in Hstrip. cbn [String.length] in Hstrip.
      f_equal. apply IH; lia.
    + apply IH; lia.
Qed.

(** Joining the pieces with the separator gives the string back. *)
Lemma join_split_scan fuel a sep cur rest :
  String.length rest ≤ fuel →
  join (String a sep) (split_scan fuel (String a sep) cur rest) = cur +:+ rest.
Proof.
  revert cur rest. induction fuel as [|fuel IH]; intros cur [|c rest]; cbn [String.length];
    intros Hfuel; try lia; cbn [split_scan join]; try by rewrite append_nil_r.
  destruct (strip_prefix (String a sep) (String c rest)) as [after|] eqn:Hstrip.
  - rewrite join_cons by apply split_scan_not_nil.
    pose proof (strip_prefix_length _ _ _ Hstrip) as Hlen. cbn [String.length] in Hlen.
    rewrite IH by lia. apply strip_prefix_spec in Hstrip. by rewrite Hstrip.
  - rewrite IH by lia. by rewrite append_assoc.
Qed.

Lemma join_characters (s : string) :
  join "" (map (fun c => String c "") (String.list_ascii_of_string s)) = s.
Proof.
  induction s as [|c s IH]; [done|].
  cbn [String.list_ascii_of_string map]. destruct s as [|c' s]; [done|].
  rewrite join_cons by done. by rewrite IH.
Qed.

(** X1. Replacing [find] by itself changes nothing, whatever [find] is:
    [str.split(find).join(find)] is [str]. *)
Theorem replaceAll_by_itself (str find : string) : replaceAll str find find = str.
Proof.
  unfold replaceAll, split. destruct find as [|a find].
  - apply join_characters.
  - by rewrite join_split_scan.
Qed.

Lemma occursb_cons find c s :
  occursb find (String c s) = false →
  strip_prefix find (String c s) = None ∧ occursb find s = false.
Proof. cbn [occursb]. by destruct (strip_prefix find (String c s)). Qed.

Lemma occursb_false_not_empty find s : occursb find s = false → find ≠ "".
Proof. intros Hocc ->. by destruct s. Qed.

Lemma split_scan_absent fuel find cur s :
  occursb find s = false → String.length s ≤ fuel →
  split_scan fuel find cur s = [cur +:+ s].
Proof.
  revert cur s. induction fuel as [|fuel IH]; intros cur [|c s] Hocc; cbn [String.length];
    intros Hfuel; try lia; cbn [split_scan]; try by rewrite append_nil_r.
  apply occursb_cons in Hocc as [-> Hocc].
  rewrite IH by (done || lia). by rewrite append_assoc.
Qed.

(** What [occursb] decides. *)
Lemma occursb_spec find s :
  occursb find s = true ↔ ∃ before after, s = before +:+ find +:+ after.
Proof.
  induction s as [|c s IH]; cbn [occursb].
  - destruct (strip_prefix find "") as [after|] eqn:Hstrip.
    + apply strip_prefix_spec in Hstrip. split; [|done]. intros _. by exists "", after.
    + split; [done|]. intros (before & after & Heq).
      destruct before; [|done]. rewrite ?append_nil_l, ?append_cons in Heq.
      apply strip_prefix_spec in Heq. congruence.
  - destruct (strip_prefix find (String c s)) as [after|] eqn:Hstrip.
    + apply strip_prefix_spec in Hstrip. split; [|done]. intros _. by exists "", after.
    + rewrite IH. split.
      * intros (before & after & ->). by exists (String c before), after.
      * intros (before & after & Heq). destruct before as [|b before].
        -- rewrite ?append_nil_l, ?append_cons in Heq. apply strip_prefix_spec in Heq. congruence.
        -- rewrite ?append_nil_l, ?append_cons in Heq. injection Heq as -> ->. by exists before, after.
Qed.

Lemma replaceAll_unchanged (str find replaceWith : string) :
  occursb find str = false →
  replaceAll str find replaceWith = str.
Proof.
  intros Hocc. pose proof (occursb_false_not_empty _ _ Hocc) as Hfind.
  unfold replaceAll, split. destruct find as [|a find]; [done|].
  by rewrite split_scan_absent.
Qed.

(** X2. A string in which [find] does not occur is returned as it is. *)
Theorem replaceAll_absent (str find replaceWith : string) :
  occursb find str = false →
  replaceAll str find replaceWith = str.
Proof. apply replaceAll_unchanged. Qed.

Lemma split_scan_leftmost fuel a find before tail after cur :
  leftmost_after (String a find) before tail = true →
  strip_prefix (String a find) tail = Some after →
  String.length (before +:+ tail) ≤ fuel →
  split_scan fuel (String a find) cur (before +:+ tail) =
    (cur +:+ before)
      :: split_scan (fuel - String.length before - 1) (String a find) "" after.
Proof.
  intros Hleft Hstrip. revert fuel cur Hleft.
  induction before as [|c before IH]; intros fuel cur Hleft Hfuel.
  - rewrite append_nil_l in Hfuel |- *. rewrite append_nil_r.
    pose proof (strip_prefix_length _ _ _ Hstrip) as Hlen. cbn [String.length] in Hlen.
    destruct tail as [|t tail]; [done|]. cbn [String.length] in Hfuel.
    destruct fuel as [|fuel]; [lia|]. cbn [split_scan]. rewrite Hstrip.
    do 2 f_equal. cbn. lia.
  - cbn [leftmost_after] in Hleft. rewrite append_cons in Hleft, Hfuel |- *.
    cbn [String.length] in Hfuel |- *.
    destruct (strip_prefix (String a find) (String c (before +:+ tail))) eqn:Hhere; [done|].
    destruct fuel as [|fuel]; [lia|]. cbn [split_scan]. rewrite Hhere.
    rewrite IH by (done || lia). by rewrite append_assoc.
Qed.

(** X3. Up to and including the leftmost occurrence of [find], the text
    before is kept and the occurrence is replaced; what follows is
    treated the same way.  With [replaceAll_absent] this says that the
    occurrences replaced are the ones found from left to right, each
    search resuming after the previous occurrence. *)
Theorem replaceAll_leftmost (before find after replaceWith : string) :
  find ≠ "" →
  leftmost_after find before (find +:+ after) = true →
  replaceAll (before +:+ find +:+ after) find replaceWith =
    before +:+ replaceWith +:+ replaceAll after find replaceWith.
Proof.
  intros Hfind Hleft. destruct find as [|a find]; [done|].
  unfold replaceAll, split.
  rewrite (split_scan_leftmost _ a find before _ after "") by
    (done || by apply strip_prefix_spec).
  rewrite join_cons by apply split_scan_not_nil.
  rewrite append_nil_l.
  rewrite (split_scan_fuel _ (String.length after)); [done| |done].
  rewrite !length_append. cbn [String.length]. lia.
Qed.

(** The empty string stays empty, whatever is looked for: splitting it
    gives no piece for an empty [find] and one empty piece otherwise. *)
Lemma replaceAll_empty_string (find replaceWith : string) :
  replaceAll "" find replaceWith = "".
Proof. by destruct find. Qed.

Lemma replaceAll_absent_witness :
  replaceAll "README.md" "__name__" "demo" = "README.md".
Proof. exact (replaceAll_absent "README.md" "__name__" "demo" eq_refl). Defined.

Lemma replaceAll_leftmost_witness :
  replaceAll ("src/" +:+ "__name__" +:+ "/__name__.ts") "__name__" "demo"
  = "src/" +:+ "demo" +:+ replaceAll "/__name__.ts" "__name__" "demo".
Proof.
  exact (replaceAll_leftmost "src/" "__name__" "/__name__.ts" "demo"
           ltac:(discriminate) eq_refl).
Defined.

Example replaceAll_does_not_rescan_what_it_inserted :
  replaceAll "aaa" "aa" "a" = "aa" ∧ replaceAll "a-b" "-" "--" = "a--b".
Proof. by split. Qed.

Lemma renameFile_turn_defined key value d b x :
  renameFile_turn key value (mkParsedPath (Some d) (Some b) (Some x)) =
    (Normal tt,
     mkParsedPath (Some (replaceAll d (placeholder key) value))
                  (Some (replaceAll b (placeholder key) value))
                  (Some (replaceAll x (placeholder key) value))).
Proof. reflexivity. Qed.

Lemma renameFile_defined d b x context :
  ∃ d' b' x',
    renameFile (mkParsedPath (Some d) (Some b) (Some x)) context =
      (Normal VUndefined, mkParsedPath (Some d') (Some b') (Some x')).
Proof.
  revert d b x. induction context as [|[key value] context IH]; intros d b x.
  - by exists d, b, x.
  - cbn [renameFile]. rewrite renameFile_turn_defined. apply IH.
Qed.

(** X5. A path none of whose parts contains the placeholder of a key of
    the context is left as it is. *)
Theorem renameFile_without_placeholders (d b x : string)
    (context : list (string * string)) :
  mentions context d = false →
  mentions context b = false →
  mentions context x = false →
  renameFile (mkParsedPath (Some d) (Some b) (Some x)) context =
    (Normal VUndefined, mkParsedPath (Some d) (Some b) (Some x)).
Proof.
  induction context as [|[key value] context IH]; [done|].
  unfold mentions. cbn [existsb fst].
  intros [Hd Hd']%orb_false_elim [Hb Hb']%orb_false_elim [Hx Hx']%orb_false_elim.
  cbn [renameFile]. rewrite renameFile_turn_defined.
  rewrite !replaceAll_unchanged by done. by apply IH.
Qed.

Lemma renameFile_without_placeholders_witness :
  renameFile (mkParsedPath (Some "src") (Some "main") (Some ".ts"))
    [("name", "demo"); ("author", "me")]
  = (Normal VUndefined, mkParsedPath (Some "src") (Some "main") (Some ".ts")).
Proof.
  exact (renameFile_without_placeholders "src" "main" ".ts"
           [("name", "demo"); ("author", "me")] eq_refl eq_refl eq_refl).
Defined.

(** X6. [renameFile] returns [undefined] when the context has no key or
    when the three parts of the path are all present; with a key to
    substitute and a part that is [undefined] it throws the [TypeError]
    of [undefined.split]. *)
Theorem renameFile_throws_on_missing_part (parsedpath : ParsedPath)
    (context : list (string * string)) :
  fst (renameFile parsedpath context) =
    match context, dirname parsedpath, basename parsedpath, extname parsedpath with
    | [], _, _, _ => Normal VUndefined
    | _ :: _, Some _, Some _, Some _ => Normal VUndefined
    | _ :: _, _, _, _ => Abrupt split_of_undefined
    end.
Proof.
  destruct context as [|[key value] context]; [done|].
  destruct parsedpath as [[d|] [b|] [x|]]; cbn [dirname basename extname]; try done.
  by destruct (renameFile_defined d b x ((key, value) :: context)) as (d' & b' & x' & ->).
Qed.

Example renameFile_expands_a_value_that_holds_a_later_key :
  renameFile (mkParsedPath (Some "__a__") (Some "x") (Some ""))
    [("a", "__b__/lib"); ("b", "core")]
  = (Normal VUndefined, mkParsedPath (Some "core/lib") (Some "x") (Some "")).
Proof. reflexivity. Qed.

Example renameFile_keeps_the_parts_assigned_before_it_throws :
  renameFile (mkParsedPath (Some "__name__") None (Some "__name__")) [("name", "demo")]
  = (Abrupt split_of_undefined, mkParsedPath (Some "demo") None (Some "__name__")).
Proof. reflexivity. Qed.

End RenameFacts.

(** ** More on the git repository *)

Module VCSMore.
Import VCS GitBacked.

Section GitMore.
Context {S Path : Type}.
Variable toString : Path → string.
Variable path_exists : Path → S → bool.
Variable system_execute : string → list string → option Path → S → Outcome * S.

Local Abbreviation patch_of := (GitRepository_patch toString path_exists system_execute).
Local Abbreviation download_of := (GitRepository_download toString path_exists system_execute).

(** What one run of [GitRepository.download] does, step by step. *)
Lemma GitRepository_download_run this destination (w : World S (GitCall Path)) :
  let clone := Execute "git" ["clone"; uri this; toString destination] None in
  let checkout := Execute "git" ["checkout"; default "" (branch this)] (Some destination) in
  let run_checkout := fun w1 : World S (GitCall Path) =>
    if truthy (branch this)
    then
      let '(o, s) := system_execute "git" ["checkout"; default "" (branch this)]
                       (Some destination) (outside w1) in
      (adopt o, {| outside := s; history := history w1 ++ call_events checkout o |})
    else (Fulfilled VUndefined, w1) in
  download_of this destination w =
    if path_exists destination (outside w) then run_checkout w
    else
      let '(o, s) := system_execute "git" ["clone"; uri this; toString destination]
                       None (outside w) in
      let w1 := {| outside := s; history := history w ++ call_events clone o |} in
      match failure o with
      | Some e => (Rejected e, w1)
      | None => run_checkout w1
      end.
Proof.
  cbv zeta.
  unfold GitRepository_download, async, bind, await, getGitRepo, Promise_resolve.
  unfold checkoutBranch, execute, perform, perform_cb, ret.
  destruct (path_exists destination (outside w)); cbn [negb].
  - destruct (truthy (branch this)); [|done].
    destruct (system_execute "git" ["checkout"; _] _ _) as [o s]. by destruct o.
  - destruct (system_execute "git" ["clone"; _; _] None _) as [o s].
    destruct o; cbn [failure]; try done.
    all: destruct (truthy (branch this)); [|done].
    all: cbn; destruct (system_execute "git" ["checkout"; default "" (branch this)]
                          (Some destination) s) as [o' s'];
         by destruct o'.
Qed.

(** X8. An empty branch name counts as no branch. *)
Theorem GitRepository_download_empty_branch (address : string) destination
    (w : World S (GitCall Path)) :
  download_of (mkGitRepository address (Some "")) destination w
  = download_of (mkGitRepository address None) destination w.
Proof. by rewrite !GitRepository_download_run. Qed.

(** X9. When the clone of an absent destination fails, [download] rejects
    with the error of the clone and no checkout is attempted, whatever
    the branch. *)
Theorem GitRepository_download_failed_clone_skips_checkout this destination
    (w : World S (GitCall Path)) e :
  let cloned := system_execute "git" ["clone"; uri this; toString destination]
                  None (outside w) in
  path_exists destination (outside w) = false →
  failure (fst cloned) = Some e →
  download_of this destination w =
    (Rejected e,
     {| outside := snd cloned;
        history :=
          history w
          ++ call_events (Execute "git" ["clone"; uri this; toString destination] None)
               (fst cloned) |}).
Proof.
  cbv zeta. intros Habsent Hfailed.
  rewrite GitRepository_download_run. cbv zeta. rewrite Habsent.
  destruct (system_execute "git" _ None _) as [o s]. cbn [fst snd] in *. by rewrite Hfailed.
Qed.

(** X10. The processes one [download] starts: a clone exactly when the
    destination is absent, then a checkout exactly when a branch is set
    and the destination was there or the clone succeeded.  Nothing else
    is ever executed. *)
Theorem GitRepository_download_processes this destination (w : World S (GitCall Path)) :
  let cloned := system_execute "git" ["clone"; uri this; toString destination]
                  None (outside w) in
  let present := path_exists destination (outside w) in
  invoked (drop (length (history w)) (history (snd (download_of this destination w)))) =
    (if present then []
     else [Execute "git" ["clone"; uri this; toString destination] None])
    ++ (if (present || succeeded (fst cloned)) && truthy (branch this)
        then [Execute "git" ["checkout"; default "" (branch this)] (Some destination)]
        else []).
Proof.
  cbv zeta. rewrite GitRepository_download_run. cbv zeta. unfold succeeded.
  destruct (path_exists destination (outside w)); cbn [orb andb].
  - destruct (truthy (branch this)).
    + destruct (system_execute "git" ["checkout"; _] _ _) as [o s]. cbn [snd history].
      by rewrite drop_app_length.
    + cbn [snd]. by rewrite drop_all.
  - destruct (system_execute "git" ["clone"; _; _] None _) as [o s]. cbn [fst].
    destruct (failure o); cbn [andb snd history].
    + by rewrite drop_app_length.
    + destruct (truthy (branch this)).
      * match goal with
        | |- context [system_execute "git" ?args (Some ?d) ?s0] =>
            destruct (system_execute "git" args (Some d) s0) as [o' s']
        end. cbn [snd history outside].
        by rewrite <- app_assoc, drop_app_length, AsyncFacts.invoked_app.
      * cbn [snd history]. by rewrite drop_app_length.
Qed.

(** X11. With the directory and the patch file both there, [patch] settles
    as [git apply] does: it rejects with the error of a failed process,
    and fulfils with [undefined], dropping the process output, after a
    successful one. *)
Theorem GitRepository_patch_settles_as_git_apply this repoDirectory patch
    (w : World S (GitCall Path)) :
  let applied := system_execute "git" ["apply"; toString patch] (Some repoDirectory)
                   (outside w) in
  path_exists repoDirectory (outside w) = true →
  path_exists patch (outside w) = true →
  patch_of this repoDirectory patch w =
    (match failure (fst applied) with
     | Some e => Rejected e
     | None => Fulfilled VUndefined
     end,
     {| outside := snd applied;
        history :=
          history w
          ++ call_events (Execute "git" ["apply"; toString patch] (Some repoDirectory))
               (fst applied) |}).
Proof.
  cbv zeta. intros Hdir Hpatch.
  assert (Hboth : path_exists repoDirectory (outside w) && path_exists patch (outside w)
                  = true) by (by rewrite Hdir, Hpatch).
  unfold GitRepository_patch, async, bind, inspect, await, execute, ret.
  rewrite Hboth, AsyncFacts.perform_run.
  by destruct (fst (system_execute _ _ _ _)).
Qed.

End GitMore.

Lemma GitRepository_download_failed_clone_skips_checkout_witness :
  GitRepository_download (fun p => p) Scenario.fs_exists failing_clone
    (mkGitRepository "https://example.org/zlib.git" (Some "release")) "deps/zlib"
    Scenario.empty_world
  = (Rejected clone_refused,
     {| outside := [];
        history :=
          call_events
            (Execute "git" ["clone"; "https://example.org/zlib.git"; "deps/zlib"] None)
            (Rejected clone_refused) |}).
Proof.
  exact (GitRepository_download_failed_clone_skips_checkout (fun p => p) Scenario.fs_exists
           failing_clone (mkGitRepository "https://example.org/zlib.git" (Some "release"))
           "deps/zlib" Scenario.empty_world clone_refused eq_refl eq_refl).
Defined.

Lemma GitRepository_patch_settles_as_git_apply_witness :
  fst (GitRepository_patch (fun p => p) Scenario.fs_exists failing_clone
         (mkGitRepository "https://example.org/zlib.git" None) "deps/zlib" "fix1.patch"
         (Scenario.world_with ["deps/zlib"; "fix1.patch"]))
  = Rejected clone_refused.
Proof.
  exact (f_equal fst
    (GitRepository_patch_settles_as_git_apply (fun p => p) Scenario.fs_exists failing_clone
       (mkGitRepository "https://example.org/zlib.git" None) "deps/zlib" "fix1.patch"
       (Scenario.world_with ["deps/zlib"; "fix1.patch"]) eq_refl eq_refl)).
Defined.

Example clone_then_checkout :
  invoked (history (snd (
    GitRepository_download (fun p => p) Scenario.fs_exists Scenario.fake_execute
      (mkGitRepository "https://example.org/zlib.git" (Some "release")) "deps/zlib"
      Scenario.empty_world)))
  = [ Execute "git" ["clone"; "https://example.org/zlib.git"; "deps/zlib"] None;
      Execute "git" ["checkout"; "release"] (Some "deps/zlib") ].
Proof. reflexivity. Qed.

End VCSMore.

(** ** A dependency fetched with git *)

Module GitBackedFacts.
Import VCS Dependency GitBacked.

Section PatchFiles.
Context {S Path : Type}.
Variable toString : Path → string.
Variable path_exists : Path → S → bool.
Variable system_execute : string → list string → option Path → S → Outcome * S.

Local Abbreviation dependency_of := (git_dependency toString path_exists system_execute).
Local Abbreviation download_of :=
  (RepositoryDependency_download (exists_in_git_world path_exists)).

Lemma patch_loop_all_skipped descriptor repo files dir (ps : list Path)
    (w : World (World S (GitCall Path)) (DepCall Path)) :
  forallb (fun p => negb (path_exists p (outside (outside w)))) ps = true →
  patch_loop (dependency_of descriptor repo files) dir ps w =
    (Normal tt,
     {| outside := outside w;
        history :=
          history w
          ++ settled_calls (map (RepoPatch dir) ps)
               (replicate (length ps) (Fulfilled VUndefined)) |}).
Proof.
  revert w. induction ps as [|p ps IH]; intros w Hmissing.
  - cbn. rewrite app_nil_r. by destruct w.
  - cbn [forallb] in Hmissing. apply andb_true_iff in Hmissing as [Hp Hps].
    apply negb_true_iff in Hp.
    rewrite DependencyFacts.patch_loop_cons. cbv zeta.
    cbn [repository git_dependency patch GitRepository_Repository].
    rewrite VCSFacts.GitRepository_patch_skipped
      by (apply andb_false_iff; by right).
    cbn [fst snd failure]. rewrite IH by done.
    cbn [outside history map length replicate]. by rewrite <- app_assoc.
Qed.

(** X12. Patch files that do not exist do not make the download fail: with
    a git repository without a branch, an absent directory and a clone
    that succeeds, [download] fulfils, every patch call fulfils, and the
    clone is the only process that was started. *)
Theorem missing_patch_files_are_passed_over descriptor repo (files : list Path)
    project build (w : World (World S (GitCall Path)) (DepCall Path)) :
  let dir := dirForDependency project (descriptor_name descriptor) in
  let cloned := system_execute "git" ["clone"; uri repo; toString dir] None
                  (outside (outside w)) in
  path_exists dir (outside (outside w)) = false →
  truthy (branch repo) = false →
  failure (fst cloned) = None →
  forallb (fun p => negb (path_exists p (snd cloned))) files = true →
  download_of (dependency_of descriptor repo files) project build w =
    (Fulfilled VUndefined,
     {| outside :=
          {| outside := snd cloned;
             history :=
               history (outside w)
               ++ call_events (Execute "git" ["clone"; uri repo; toString dir] None)
                    (fst cloned) |};
        history :=
          history w
          ++ call_events (RepoDownload dir) (Fulfilled VUndefined)
          ++ settled_calls (map (RepoPatch dir) files)
               (replicate (length files) (Fulfilled VUndefined)) |}).
Proof.
  cbv zeta. intros Habsent Hbranch Hcloned Hmissing.
  rewrite DependencyFacts.RepositoryDependency_download_absent_run by done. cbv zeta.
  cbn [repository git_dependency download GitRepository_Repository Dependency.patches
       name Dependency.descriptor].
  rewrite VCSMore.GitRepository_download_run. cbv zeta.
  change (name (dependency_of descriptor repo files)) with (descriptor_name descriptor).
  rewrite Habsent, Hbranch.
  destruct (system_execute "git" _ None _) as [o s]. cbn [fst snd] in *.
  rewrite Hcloned. cbn [fst snd failure].
  rewrite patch_loop_all_skipped by done.
  cbn [outside history]. by rewrite <- app_assoc.
Qed.

End PatchFiles.

Lemma missing_patch_files_are_passed_over_witness :
  fst (RepositoryDependency_download (exists_in_git_world Scenario.fs_exists)
         (git_dependency (fun p => p) Scenario.fs_exists Scenario.fake_execute
            Scenario.zlib_descriptor (mkGitRepository "https://example.org/zlib.git" None)
            ["fix1.patch"; "fix2.patch"])
         Scenario.project Scenario.deploy_build
         {| outside := Scenario.empty_world; history := [] |})
  = Fulfilled VUndefined.
Proof.
  exact (f_equal fst
    (missing_patch_files_are_passed_over (fun p => p) Scenario.fs_exists
       Scenario.fake_execute Scenario.zlib_descriptor
       (mkGitRepository "https://example.org/zlib.git" None)
       ["fix1.patch"; "fix2.patch"] Scenario.project Scenario.deploy_build
       {| outside := Scenario.empty_world; history := [] |}
       eq_refl eq_refl eq_refl eq_refl)).
Defined.

End GitBackedFacts.

(** ** More on the orchestrator *)

Module OrchestratorMore.
Import VCS Dependency.

Section GetDependencyMore.
Context {T Path : Type}.
Implicit Types (dependency : Dependency T Path) (w : World T OrchCall).

(** X13. The line "Ready" is logged exactly when the run fulfils: its
    absence from the log tells that the dependency is not usable. *)
Theorem getDependency_ready_iff_fulfilled (project : Project Path) build dependency w :
  let run := getDependency project build dependency w in
  Invoke (Raftlog (dep_name dependency) "Ready")
    ∈ drop (length (history w)) (history (snd run))
  ↔ fst run = Fulfilled VUndefined.
Proof.
  cbv zeta.
  pose proof (OrchestratorFacts.getDependency_run project build dependency w) as Hrun.
  cbv zeta in Hrun.
  destruct (dep_download dependency project build (outside w)) as [d t1].
  rewrite Hrun.
  destruct d as [v|e|v|e]; cbn [fst snd history].
  2-4: rewrite drop_app_length; split; [intros Hin; by member_of_written_list Hin | done].
  destruct (dep_buildInstall dependency project build t1) as [b t2].
  destruct (failure b); cbn [fst snd history]; rewrite <- ?app_assoc, drop_app_length.
  - split; [intros Hin; by member_of_written_list Hin | done].
  - split; [done|]. intros _. unfold call_events. cbn. set_solver.
Qed.

(** X14. When [download] fulfils and [buildInstall] fails, the run rejects
    with the error of [buildInstall]; "Building" is the last line logged
    and the world is the one [buildInstall] left. *)
Theorem getDependency_failed_build_rejects (project : Project Path) build dependency w v e :
  let fetched := dep_download dependency project build (outside w) in
  let built := dep_buildInstall dependency project build (snd fetched) in
  fst fetched = Fulfilled v →
  failure (fst built) = Some e →
  getDependency project build dependency w =
    (Rejected e,
     {| outside := snd built;
        history :=
          history w
          ++ call_events (Raftlog (dep_name dependency) "Downloading") (Plain VUndefined)
          ++ call_events Download (Fulfilled v)
          ++ call_events (Raftlog (dep_name dependency) "Building") (Plain VUndefined)
          ++ call_events BuildInstall (fst built) |}).
Proof.
  cbv zeta. intros Hfetched Hbuilt.
  pose proof (OrchestratorFacts.getDependency_run project build dependency w) as Hrun.
  cbv zeta in Hrun.
  destruct (dep_download dependency project build (outside w)) as [d t1].
  cbn [fst snd] in *. subst d.
  destruct (dep_buildInstall dependency project build t1) as [b t2].
  cbn [fst snd] in *. rewrite Hbuilt in Hrun. rewrite Hrun.
  by rewrite <- !app_assoc.
Qed.

(** X16. A [download] that returns something that is not a promise makes
    [getDependency] throw a [TypeError] instead of returning a promise;
    [buildInstall] is not invoked. *)
Theorem getDependency_throws_on_plain_download
    (project : Project Path) build dependency w v :
  let fetched := dep_download dependency project build (outside w) in
  fst fetched = Plain v →
  getDependency project build dependency w =
    (Threw TypeError,
     {| outside := snd fetched;
        history :=
          history w
          ++ call_events (Raftlog (dep_name dependency) "Downloading") (Plain VUndefined)
          ++ call_events Download (Plain v) |}).
Proof.
  cbv zeta. intros Hfetched.
  pose proof (OrchestratorFacts.getDependency_run project build dependency w) as Hrun.
  cbv zeta in Hrun.
  destruct (dep_download dependency project build (outside w)) as [d t1].
  cbn [fst snd] in *. by subst d.
Qed.

End GetDependencyMore.

Section RepositoryDependencyMore.
Context {S Path : Type}.
Variable path_exists : Path → S → bool.
Variable CMake_configure : Path → Path → CMakeOptions Path → S → Outcome * S.
Variable CMake_build : Path → S → Outcome * S.
Variable CMake_install : Path → S → Outcome * S.

Local Abbreviation source_only := (RepositoryDependency_Dependency path_exists).
Local Abbreviation cmake_built :=
  (CMakeDependency_Dependency path_exists CMake_configure CMake_build CMake_install).

(** [download] is an [async] function: whatever the repository does,
    also throwing or returning a plain value, the caller gets a promise
    that fulfils with [undefined] or rejects. *)
Lemma RepositoryDependency_download_settles
    (this : RepositoryDependency S Path) project build (w : World S (DepCall Path)) :
  let outcome := fst (RepositoryDependency_download path_exists this project build w) in
  outcome = Fulfilled VUndefined ∨ ∃ e, outcome = Rejected e.
Proof.
  cbv zeta. unfold RepositoryDependency_download, async, bind, inspect, await.
  destruct (path_exists _ (outside w)); [by left|].
  rewrite AsyncFacts.perform_run.
  destruct (fst (VCS.download (repository this) _ (outside w)));
    try (right; by eexists).
  all: destruct (patch_loop this _ (patches this) _) as [[[]|e] w2];
    [by left | right; by eexists].
Qed.

(** X15. For a [RepositoryDependency] and for a [CMakeDependency],
    [getDependency] never throws: it fulfils with [undefined] or
    rejects, also when the repository or the build backend throws or
    hands back something that is not a promise. *)
Theorem getDependency_on_repository_dependency_never_throws
    (this : RepositoryDependency S Path) project build
    (w : World (World S (DepCall Path)) OrchCall) :
  let settles := fun dependency =>
    let outcome := fst (getDependency project build dependency w) in
    outcome = Fulfilled VUndefined ∨ ∃ e, outcome = Rejected e in
  settles (source_only this) ∧ settles (cmake_built this).
Proof.
  cbv zeta.
  assert (Hany : ∀ dependency : Dependency (World S (DepCall Path)) Path,
    dep_download dependency = RepositoryDependency_download path_exists this →
    fst (getDependency project build dependency w) = Fulfilled VUndefined
    ∨ ∃ e, fst (getDependency project build dependency w) = Rejected e).
  { intros dependency Hdl.
    pose proof (OrchestratorFacts.getDependency_run project build dependency w) as Hrun.
    cbv zeta in Hrun. rewrite Hdl in Hrun.
    pose proof (RepositoryDependency_download_settles this project build (outside w))
      as Hsettles. cbv zeta in Hsettles.
    destruct (RepositoryDependency_download path_exists this project build (outside w))
      as [d t1]. cbn [fst] in Hsettles. rewrite Hrun.
    destruct Hsettles as [-> | [e ->]]; [|right; by eexists].
    destruct (dep_buildInstall dependency project build t1) as [b t2].
    destruct (failure b); [right; by eexists | by left]. }
  split; by apply Hany.
Qed.

(** X17. For a plain [RepositoryDependency] the build phase does nothing:
    [getDependency] leaves the dependency's world as [download] left it,
    fulfils when [download] fulfilled and rejects with its reason
    otherwise. *)
Theorem getDependency_source_only_is_download
    (this : RepositoryDependency S Path) project build
    (w : World (World S (DepCall Path)) OrchCall) :
  let fetched := RepositoryDependency_download path_exists this project build (outside w) in
  let run := getDependency project build (source_only this) w in
  outside (snd run) = snd fetched ∧ fst run = fst fetched.
Proof.
  cbv zeta.
  pose proof (OrchestratorFacts.getDependency_run project build (source_only this) w)
    as Hrun.
  cbv zeta in Hrun. cbn [dep_download dep_buildInstall RepositoryDependency_Dependency] in Hrun.
  pose proof (RepositoryDependency_download_settles this project build (outside w))
    as Hsettles. cbv zeta in Hsettles.
  destruct (RepositoryDependency_download path_exists this project build (outside w))
    as [d t1]. cbn [fst snd] in *. rewrite Hrun.
  by destruct Hsettles as [-> | [e ->]].
Qed.

End RepositoryDependencyMore.

Lemma getDependency_failed_build_rejects_witness :
  fst (getDependency Scenario.project Scenario.deploy_build
         (CMakeDependency_Dependency Scenario.fs_exists Scenario.fake_configure
            Scenario.failing_build Scenario.fake_install Scenario.zlib)
         {| outside := Scenario.empty_world; history := [] |})
  = Rejected Scenario.compile_error.
Proof.
  exact (f_equal fst
    (getDependency_failed_build_rejects Scenario.project Scenario.deploy_build
       (CMakeDependency_Dependency Scenario.fs_exists Scenario.fake_configure
          Scenario.failing_build Scenario.fake_install Scenario.zlib)
       {| outside := Scenario.empty_world; history := [] |}
       VUndefined Scenario.compile_error eq_refl eq_refl)).
Defined.

Lemma getDependency_throws_on_plain_download_witness :
  fst (getDependency Scenario.project Scenario.deploy_build GitBacked.null_download
         (Scenario.world_with []))
  = Threw TypeError.
Proof.
  exact (f_equal fst
    (getDependency_throws_on_plain_download Scenario.project Scenario.deploy_build
       GitBacked.null_download (Scenario.world_with []) VNull eq_refl)).
Defined.

End OrchestratorMore.

(** ** More on templates *)

Module TemplateMore.
Import Template.

Section InstantiateMore.
Context {S Path : Type}.
Variable toString : Path → string.
Variable append : Path → string → Path.
Variable gulp_stream : Path → Path → list (string * string) → S → StreamEnd * S.
Variable rimraf : string → S → option Value * S.

Local Abbreviation instantiate_of :=
  (instantiateRepositoryTemplate toString append gulp_stream rimraf).

(** X18. When the download of the template repository fails,
    [instantiateRepositoryTemplate] rejects with that error; the
    template is not instantiated and nothing is removed. *)
Theorem instantiateRepositoryTemplate_failed_download
    (repo : VCS.Repository S Path) destination context
    (w : World S (TemplateCall Path)) e :
  let repoLocation := append destination ".template" in
  let fetched := VCS.download repo repoLocation (outside w) in
  failure (fst fetched) = Some e →
  instantiate_of repo destination context w =
    (Rejected e,
     {| outside := snd fetched;
        history := history w ++ call_events (RepoDownload repoLocation) (fst fetched) |}).
Proof.
  cbv zeta. intros Hfailed.
  unfold instantiateRepositoryTemplate, async, bind, await.
  rewrite AsyncFacts.perform_run.
  destruct (VCS.download repo _ (outside w)) as [o s]. cbn [fst snd] in *.
  destruct o; cbn [failure] in Hfailed; by simplify_eq.
Qed.

(** X19. When the stream that instantiates the template ends with an
    error, [instantiateRepositoryTemplate] rejects with it and [rimraf]
    is not called: the downloaded [.template] directory is left in the
    destination. *)
Theorem instantiateRepositoryTemplate_failed_stream_keeps_template
    (repo : VCS.Repository S Path) destination context
    (w : World S (TemplateCall Path)) e s2 :
  let repoLocation := append destination ".template" in
  let fetched := VCS.download repo repoLocation (outside w) in
  failure (fst fetched) = None →
  gulp_stream repoLocation destination context (snd fetched) = (Error e, s2) →
  instantiate_of repo destination context w =
    (Rejected e,
     {| outside := s2;
        history :=
          history w
          ++ call_events (RepoDownload repoLocation) (fst fetched)
          ++ call_events (GulpStream repoLocation destination) (Rejected e) |}).
Proof.
  cbv zeta. intros Hfetched Hstream.
  unfold instantiateRepositoryTemplate, instantiateTemplate, async, bind, await.
  unfold new_Promise, perform, perform_cb.
  destruct (VCS.download repo _ (outside w)) as [o s]. cbn [fst snd] in *.
  destruct o; try done; cbn [outside history]; rewrite Hstream;
    cbn [outside history]; by rewrite <- !app_assoc.
Qed.

End InstantiateMore.

Lemma instantiateRepositoryTemplate_failed_download_witness :
  instantiateRepositoryTemplate (fun p => p) Scenario.fs_append
    Scenario.stream_finishes Scenario.failing_rimraf
    Scenario.unreachable_repository "app" [("name", "demo")] Scenario.empty_world
  = (Rejected Scenario.network_down,
     {| outside := [];
        history := call_events (RepoDownload "app/.template")
                     (Rejected Scenario.network_down) |}).
Proof.
  exact (instantiateRepositoryTemplate_failed_download (fun p => p) Scenario.fs_append
           Scenario.stream_finishes Scenario.failing_rimraf
           Scenario.unreachable_repository "app" [("name", "demo")] Scenario.empty_world
           Scenario.network_down eq_refl).
Defined.

Lemma instantiateRepositoryTemplate_failed_stream_keeps_template_witness :
  let run :=
    instantiateRepositoryTemplate (fun p => p) Scenario.fs_append
      GitBacked.failing_stream Scenario.failing_rimraf
      Scenario.fake_repository "app" [("name", "demo")] Scenario.empty_world in
  fst run = Rejected Scenario.busy
  ∧ Scenario.fs_exists "app/.template" (outside (snd run)) = true.
Proof.
  pose proof (instantiateRepositoryTemplate_failed_stream_keeps_template (fun p => p)
           Scenario.fs_append GitBacked.failing_stream Scenario.failing_rimraf
           Scenario.fake_repository "app" [("name", "demo")] Scenario.empty_world
           Scenario.busy ["app/.template"] eq_refl eq_refl) as Hrun.
  cbv zeta in *. by rewrite Hrun.
Defined.

End TemplateMore.

(** ** The name of a dependency over its lifetime *)

Module LifetimeFacts.
Import VCS Dependency PatchOrder Lifetime.

Section LiveNameFacts.
Context {T Path : Type}.

(** With a name that does not depend on the state, [getDependency_live]
    is [getDependency]. *)
Lemma getDependency_live_fixed_name (project : Project Path) build
    (dependency : Dependency T Path) :
  getDependency_live project build (fun _ => dep_name dependency)
    (dep_download dependency) (dep_buildInstall dependency)
  = getDependency project build dependency.
Proof. reflexivity. Qed.

(** What one run of [getDependency_live] does, step by step. *)
Lemma getDependency_live_run (project : Project Path) build (name_now : T → string)
    (download buildInstall : Project Path → Build → T → Outcome * T)
    (w : World T OrchCall) :
  let log := fun t message =>
    call_events (Raftlog (name_now t) message) (Plain VUndefined) in
  let '(d, t1) := download project build (outside w) in
  let h1 := history w ++ log (outside w) "Downloading" ++ call_events Download d in
  getDependency_live project build name_now download buildInstall w =
    match d with
    | Fulfilled _ =>
        let '(b, t2) := buildInstall project build t1 in
        let h2 := h1 ++ log t1 "Building" ++ call_events BuildInstall b in
        match failure b with
        | None =>
            (Fulfilled VUndefined, {| outside := t2; history := h2 ++ log t2 "Ready" |})
        | Some e => (Rejected e, {| outside := t2; history := h2 |})
        end
    | Rejected e => (Rejected e, {| outside := t1; history := h1 |})
    | Plain _ => (Threw TypeError, {| outside := t1; history := h1 |})
    | Threw e => (Threw e, {| outside := t1; history := h1 |})
    end.
Proof.
  cbv zeta.
  unfold getDependency_live, seq, then_, raftlog, plain, perform, perform_cb.
  cbn [outside history].
  destruct (download project build (outside w)) as [d t1].
  destruct d; cbn [call_events outside history]; rewrite <- ?app_assoc; try done.
  destruct (buildInstall project build t1) as [b t2].
  destruct b; cbn [adopt failure call_events outside history]; by rewrite <- ?app_assoc.
Qed.

End LiveNameFacts.

Section ObjectFacts.
Context {S Path : Type}.
Variable path_exists : Path → Heap S → bool.
Variable CMake_configure : Path → Path → CMakeOptions Path → Heap S → Outcome * Heap S.
Variable CMake_build : Path → Heap S → Outcome * Heap S.
Variable CMake_install : Path → Heap S → Outcome * Heap S.
Variable repository : Repository (Heap S) Path.
Variable patches : list Path.

(** The collaborators leave the name of the descriptor alone. *)
Hypothesis download_keeps : ∀ destination, keeps_name (VCS.download repository destination).
Hypothesis patch_keeps : ∀ dir file, keeps_name (VCS.patch repository dir file).
Hypothesis configure_keeps : ∀ source build options,
  keeps_name (CMake_configure source build options).
Hypothesis build_keeps : ∀ build, keeps_name (CMake_build build).
Hypothesis install_keeps : ∀ build, keeps_name (CMake_install build).

Local Abbreviation this_at := (this_in repository patches).
Local Abbreviation name_at := (name_in repository patches).
Local Abbreviation download_of := (download_call path_exists repository patches).
Local Abbreviation buildInstall_of :=
  (buildInstall_call CMake_configure CMake_build CMake_install repository patches).
Local Abbreviation getDependency_of :=
  (getDependency_call path_exists CMake_configure CMake_build CMake_install
     repository patches).
Local Abbreviation after_of :=
  (after path_exists CMake_configure CMake_build CMake_install repository patches).
Local Abbreviation after_all_of :=
  (after_all path_exists CMake_configure CMake_build CMake_install repository patches).

Lemma name_at_eq (h : Heap S) : name_at h = descriptor_name (held h).
Proof. reflexivity. Qed.

Lemma spec_apply_patches_keeps dir ps (h : Heap S) :
  name_at (final (spec_apply_patches repository dir ps h)) = name_at h.
Proof.
  revert h. induction ps as [|p ps IH]; intros h; [done|].
  cbn [spec_apply_patches].
  pose proof (patch_keeps dir p h) as Hp.
  destruct (VCS.patch repository dir p h) as [o h1]. cbn [snd] in Hp.
  destruct (failure o); cbn [final]; rewrite ?IH, !name_at_eq; done.
Qed.

Lemma download_call_keeps project build (w : World (Heap S) (DepCall Path)) :
  name_at (outside (snd (download_of project build w))) = name_at (outside w).
Proof.
  unfold download_call.
  destruct (path_exists (dirForDependency project (name (this_at (outside w))))
              (outside w)) eqn:Hdir.
  - unfold RepositoryDependency_download, async, bind, inspect. by rewrite Hdir.
  - rewrite DependencyFacts.RepositoryDependency_download_absent_run by done. cbv zeta.
    cbn [Dependency.repository this_in Dependency.patches].
    set (dir := dirForDependency project _).
    pose proof (download_keeps dir (outside w)) as Hfetch.
    destruct (VCS.download repository dir (outside w)) as [o h1]. cbn [fst snd] in *.
    destruct (failure o); [by rewrite !name_at_eq|].
    rewrite DependencyFacts.patch_loop_refines. cbv zeta.
    cbn [Dependency.repository this_in outside].
    destruct (stopped_by _); cbn [snd outside];
      by rewrite spec_apply_patches_keeps, !name_at_eq.
Qed.

Lemma buildInstall_call_keeps c project build (w : World (Heap S) (DepCall Path)) :
  name_at (outside (snd (buildInstall_of c project build w))) = name_at (outside w).
Proof.
  unfold buildInstall_call. destruct c; [done|].
  pose proof (CMakeFacts.CMakeDependency_buildInstall_run CMake_configure CMake_build
                CMake_install (this_at (outside w)) project build w) as Hrun.
  cbv zeta in Hrun.
  set (source := dirForDependency project _) in *.
  set (target := dirForDependencyBuild project _ build) in *.
  set (options := cmakeOptions _ project build) in *.
  pose proof (configure_keeps source target options (outside w)) as H1.
  destruct (CMake_configure source target options (outside w)) as [o1 h1].
  cbn [snd] in H1. rewrite Hrun. rewrite !name_at_eq.
  destruct o1; cbn [snd outside]; try done.
  pose proof (build_keeps target h1) as H2.
  destruct (CMake_build target h1) as [o2 h2]. cbn [snd] in H2.
  destruct (failure o2); cbn [snd outside]; [congruence|].
  pose proof (install_keeps target h2) as H3.
  destruct (CMake_install target h2) as [o3 h3]. cbn [snd outside] in *. congruence.
Qed.

Lemma getDependency_call_keeps c project build
    (w : World (World (Heap S) (DepCall Path)) OrchCall) :
  let run := getDependency_of c project build w in
  name_at (outside (outside (snd run))) = name_at (outside (outside w))
  ∧ ∀ n message,
      Invoke (Raftlog n message) ∈ drop (length (history w)) (history (snd run)) →
      n = name_at (outside (outside w)).
Proof.
  cbv zeta. unfold getDependency_call.
  pose proof (getDependency_live_run project build
                (fun t : World (Heap S) (DepCall Path) => name_at (outside t))
                (fun project build => download_of project build)
                (fun project build => buildInstall_of c project build) w) as Hrun.
  cbv zeta in Hrun.
  pose proof (download_call_keeps project build (outside w)) as Hd.
  destruct (download_of project build (outside w)) as [d t1]. cbn [snd] in Hd.
  rewrite Hrun.
  destruct d as [v|e|v|e]; cbn [snd history outside].
  2-4: split; [done|]; intros n message; rewrite drop_app_length;
       intros Hin; by member_of_written_list Hin.
  pose proof (buildInstall_call_keeps c project build t1) as Hb.
  destruct (buildInstall_of c project build t1) as [b t2]. cbn [snd] in Hb.
  assert (Hn2 : name_at (outside t2) = name_at (outside (outside w))) by congruence.
  destruct (failure b); cbn [snd history outside]; (split; [done|]);
    intros n message; rewrite <- ?app_assoc, drop_app_length;
    intros Hin; by member_of_written_list Hin.
Qed.

Lemma after_keeps c op (t : World (Heap S) (DepCall Path)) :
  name_at (outside (after_of c op t)) = name_at (outside t).
Proof.
  destruct op as [project build|project build|project build]; cbn [after].
  - apply download_call_keeps.
  - apply buildInstall_call_keeps.
  - apply (getDependency_call_keeps c project build {| outside := t; history := [] |}).
Qed.

Lemma after_all_keeps c ops (t : World (Heap S) (DepCall Path)) :
  name_at (outside (after_all_of c ops t)) = name_at (outside t).
Proof.
  revert t. induction ops as [|op ops IH]; intros t; [done|].
  unfold after_all. cbn [fold_left]. fold (after_all_of c ops (after_of c op t)).
  by rewrite IH, after_keeps.
Qed.


End ObjectFacts.



End LifetimeFacts.
